(** * fractal-tasks-core: well codec, filename parser, FOV size check and
      cross-cycle registration of ROI tables

    A shallow embedding of

    - [fractal_tasks_core/cellvoyager/wells.py],
    - [fractal_tasks_core/lib_parse_filename_metadata.py],
    - the FOV size check of [fractal_tasks_core/illumination_correction.py],
    - [fractal_tasks_core/tasks/apply_registration_to_ROI_tables.py],

    followed by the properties of these functions that the specification
    states.

    Conventions.  A Python [str] is a [string]; its characters are the code
    points below 256.  A Python [int] is a [Z].  A function that can raise
    returns a [result]: [Ok v] for a returned value, [Raise e] for an
    exception [e]. *)

From Stdlib Require Import ZArith String Ascii List Bool Lia Permutation Sorted.
From stdpp Require Import base option list gmap strings.

Import ListNotations.
Local Open Scope string_scope.
Local Open Scope list_scope.

(** ** Exceptions and results *)

(** The text of an exception, one constructor per [raise] of the source,
    carrying the values its f-string interpolates. *)
Inductive message : Type :=
| msg_wells_row_col (row col : string)
| msg_wells_like (well_id : string)
| msg_not_valid (filename : string)
| msg_something_wrong_TFLAZC (filename TFLAZC : string)
| msg_something_wrong_key_value (filename key value : string)
| msg_inconsistent_image_sizes
| msg_already_translation_columns
| msg_no_translation_columns (acq : Z) (roi_table : string)
| msg_not_same_ROIs (acq reference_cycle : Z) (acq_rois rois : list string)
| msg_lengths_must_match
| msg_external (what : string).

Inductive exn : Type :=
| NotImplementedError (m : message)
| ValueError (m : message)
| Exception (m : message)
| IndexError
| KeyError
| InvalidIndexError
| NameError (name : string).

Inductive result (A : Type) : Type :=
| Ok (a : A)
| Raise (e : exn).
Arguments Ok {A} a.
Arguments Raise {A} e.

Definition bind {A B} (r : result A) (k : A -> result B) : result B :=
  match r with
  | Ok a => k a
  | Raise e => Raise e
  end.

Notation "'do' x <- r ; k" := (bind r (fun x => k))
  (at level 10, x name, r at level 100, k at level 200).
Notation "'do' ' p <- r ; k" := (bind r (fun x => let 'p := x in k))
  (at level 10, p strict pattern, r at level 100, k at level 200).

Definition is_ok {A} (r : result A) : bool :=
  match r with Ok _ => true | Raise _ => false end.

(** [[f(x) for x in l]]: the first exception stops the comprehension. *)
Fixpoint map_result {A B} (f : A -> result B) (l : list A) : result (list B) :=
  match l with
  | [] => Ok []
  | x :: l' => do y <- f x; do ys <- map_result f l'; Ok (y :: ys)
  end.

(** ** Python strings *)

Module Str.

(** [s[i]] for [i >= 0]. *)
Definition index (s : string) (i : nat) : result string :=
  match String.get i s with
  | Some c => Ok (String c EmptyString)
  | None => Raise IndexError
  end.

(** [s[a:b]] for [0 <= a], [0 <= b]: slices clamp, they never raise. *)
Definition slice (s : string) (a b : nat) : string :=
  String.substring a (b - a) s.

(** [s[a:]]. *)
Definition slice_from (s : string) (a : nat) : string :=
  String.substring a (String.length s - a) s.

(** [s.count(c)] for a one-character [c]. *)
Fixpoint count (c : ascii) (s : string) : nat :=
  match s with
  | EmptyString => 0
  | String d s' => (if Ascii.eqb d c then 1 else 0) + count c s'
  end.

(** [s.split(c)] for a one-character separator [c]. *)
Fixpoint split (c : ascii) (s : string) : list string :=
  match s with
  | EmptyString => [EmptyString]
  | String d s' =>
      if Ascii.eqb d c then EmptyString :: split c s'
      else match split c s' with
           | p :: ps => String d p :: ps
           | [] => [String d EmptyString]
           end
  end.

(** [sep.join(l)]. *)
Definition join (sep : string) (l : list string) : string :=
  String.concat sep l.

End Str.

(** ** cellvoyager/wells.py *)

Definition get_filename_well_id (row col : string) : result string :=
  if (String.length row =? 1)%nat && (String.length col =? 2)%nat then
    Ok (row +:+ col)
  else if (String.length row =? 2)%nat && (String.length col =? 3)%nat then
    do r0 <- Str.index row 0;
    do r1 <- Str.index row 1;
    do c2 <- Str.index col 2;
    Ok (r0 +:+ Str.slice col 0 2 +:+ "." +:+ r1 +:+ c2)
  else
    Raise (NotImplementedError (msg_wells_row_col row col)).

Definition _extract_row_col_from_well_id (well_id : string)
  : result (string * string) :=
  if (String.length well_id =? 3)%nat && (Str.count "." well_id =? 0)%nat then
    do w0 <- Str.index well_id 0;
    Ok (w0, Str.slice well_id 1 3)
  else if (String.length well_id =? 6)%nat
          && (Str.count "." well_id =? 1)%nat then
    match Str.split "." well_id with
    | [core; suffix] =>
        do c0 <- Str.index core 0;
        do s0 <- Str.index suffix 0;
        do s1 <- Str.index suffix 1;
        Ok (c0 +:+ s0, Str.slice_from core 1 +:+ s1)
    | _ => Raise (ValueError (msg_external "unpack"))
    end
  else
    Raise (NotImplementedError (msg_wells_like well_id)).

(** Order of Python tuples of two strings: strings compare by code point,
    tuples by their first differing component. *)
Definition str_lt (a b : string) : bool := String.ltb a b.

Definition tuple_lt (p q : string * string) : bool :=
  if String.eqb (fst p) (fst q) then str_lt (snd p) (snd q)
  else str_lt (fst p) (fst q).

(** [sorted(l)]: a stable sort that compares with [<] only. *)
Fixpoint insert_sorted (x : string * string) (l : list (string * string))
  : list (string * string) :=
  match l with
  | [] => [x]
  | y :: l' => if tuple_lt x y then x :: y :: l' else y :: insert_sorted x l'
  end.

Definition sorted (l : list (string * string)) : list (string * string) :=
  fold_left (fun acc x => insert_sorted x acc) l [].

Definition generate_row_col_split (wells : list string)
  : result (list (string * string)) :=
  do well_rows_columns <- map_result _extract_row_col_from_well_id wells;
  Ok (sorted well_rows_columns).

(** ** lib_parse_filename_metadata.py *)

Module Py.

(** [l[i]] for [i >= 0]. *)
Definition list_index {A} (l : list A) (i : nat) : result A :=
  match nth_error l i with
  | Some x => Ok x
  | None => Raise IndexError
  end.

(** [l[:-2]]. *)
Definition all_but_last_two {A} (l : list A) : list A :=
  firstn (length l - 2) l.

(** [l[::2]]. *)
Fixpoint every_other {A} (l : list A) : list A :=
  match l with
  | x :: _ :: l' => x :: every_other l'
  | [x] => [x]
  | [] => []
  end.

(** One character of [str.isdigit]: besides [0-9], the code points below
    256 with the Unicode digit property are the superscripts two, three
    and one (178, 179, 185). *)
Definition char_isdigit (c : ascii) : bool :=
  let n := N_of_ascii c in
  ((48 <=? n)%N && (n <=? 57)%N)
  || (n =? 178)%N || (n =? 179)%N || (n =? 185)%N.

Fixpoint all_chars (p : ascii -> bool) (s : string) : bool :=
  match s with
  | EmptyString => true
  | String c s' => p c && all_chars p s'
  end.

(** [s.isdigit()]: at least one character, and all of them digits. *)
Definition isdigit (s : string) : bool :=
  negb (String.eqb s "") && all_chars char_isdigit s.

(** The class [[0-9]] of a regular expression over [str]. *)
Definition re_0_9 (c : ascii) : bool :=
  let n := N_of_ascii c in (48 <=? n)%N && (n <=? 57)%N.

Definition starts_with_0_9 (s : string) : bool :=
  match s with
  | EmptyString => false
  | String c _ => re_0_9 c
  end.

(** [re.split(r"([0-9]+)", s)]: the text between the maximal runs of
    [[0-9]], alternating with the runs themselves; there is always a
    first and a last piece of text, empty when [s] starts or ends with
    a run. *)
Fixpoint re_split_digits (s : string) : list string :=
  match s with
  | EmptyString => [EmptyString]
  | String c s' =>
      let r := re_split_digits s' in
      if re_0_9 c then
        if starts_with_0_9 s' then
          match r with
          | t :: d :: rest => t :: String c d :: rest
          | _ => r
          end
        else EmptyString :: String c EmptyString :: r
      else
        match r with
        | t :: rest => String c t :: rest
        | [] => [String c EmptyString]
        end
  end.

End Py.

(** The [and] chain of the source reads [fields[i]] only after the test on
    [len(fields)]; here [nth i fields ""] stands for [fields[i]]. *)
Definition get_plate_name (plate_prefix : string) : string :=
  let fields := Str.split "_" plate_prefix in
  let field i := nth i fields "" in
  let len f := String.length f in
  if (length fields =? 3)%nat
     && (len (field 1%nat) =? 6)%nat
     && (len (field 2%nat) =? 6)%nat
     && Py.isdigit (field 1%nat)
     && Py.isdigit (field 2%nat) then
    field 0%nat
  else if (length fields =? 4)%nat
          && (len (field 0%nat) =? 6)%nat
          && (len (field 1%nat) =? 6)%nat
          && (len (field 2%nat) =? 6)%nat
          && (len (field 3%nat) =? 6)%nat
          && Py.isdigit (field 0%nat)
          && Py.isdigit (field 1%nat)
          && Py.isdigit (field 2%nat)
          && Py.isdigit (field 3%nat) then
    "RS" +:+ (field 0%nat +:+ field 1%nat)
  else
    plate_prefix.

(** The [output] dictionary once [plate_prefix], [plate] and [well] are
    assigned (the source's lines 88 to 92). *)
Definition plate_and_well (filename_fields : list string)
  : gmap string string :=
  let output : gmap string string := ∅ in
  let plate_prefix := Str.join "_" (Py.all_but_last_two filename_fields) in
  let output := <["plate_prefix" := plate_prefix]> output in
  let output := <["plate" := get_plate_name plate_prefix]> output in
  <["well" := nth (length filename_fields - 2) filename_fields ""]> output.

(** The loop [for ind, key in enumerate(metadata[::2])], entered at index
    [ind] with the keys still to visit. *)
Fixpoint fill_output (filename : string) (metadata : list string)
    (ind : nat) (keys : list string) (output : gmap string string)
  : result (gmap string string) :=
  match keys with
  | [] => Ok output
  | key :: keys' =>
      do value <- Py.list_index metadata (2 * ind + 1);
      if Py.isdigit key || negb (Py.isdigit value) then
        Raise (ValueError (msg_something_wrong_key_value filename key value))
      else
        fill_output filename metadata (S ind) keys' (<[key := value]> output)
  end.

Section ParseFilename.

(** [Path(filename).with_suffix("").name], of the standard library. *)
Variable path_stem : string -> result string.

Definition parse_filename (filename : string)
  : result (gmap string string) :=
  do filename <- path_stem filename;
  let filename_fields := Str.split "_" filename in
  if (length filename_fields <? 3)%nat then
    Raise (ValueError (msg_not_valid filename))
  else
    let output := plate_and_well filename_fields in
    let TFLAZC := List.last filename_fields "" in
    let metadata := Py.re_split_digits TFLAZC in
    if negb (String.eqb (List.last metadata "") "")
       || negb (length metadata =? 13)%nat then
      Raise (ValueError (msg_something_wrong_TFLAZC filename TFLAZC))
    else
      let metadata := List.removelast metadata in
      fill_output filename metadata 0 (Py.every_other metadata) output.

End ParseFilename.

(** ** illumination_correction.py: the size of the fields of view *)

(** One element of [list_indices]: the level-0 pixel window of a ROI. *)
Record indices : Type := mk_indices {
  s_z : Z; e_z : Z; s_y : Z; e_y : Z; s_x : Z; e_x : Z
}.

Definition img_size_of (i : indices) : Z * Z :=
  (e_y i - s_y i, e_x i - s_x i)%Z.

Definition img_size_eqb (a b : Z * Z) : bool :=
  (fst a =? fst b)%Z && (snd a =? snd b)%Z.

(** The loop over [list_indices]; [ref_img_size] and [img_size] are [None]
    while the variable is [None], respectively unbound. *)
Fixpoint img_size_loop (ref_img_size img_size : option (Z * Z))
    (list_indices : list indices) : result (option (Z * Z)) :=
  match list_indices with
  | [] => Ok img_size
  | i :: rest =>
      let img_size := img_size_of i in
      match ref_img_size with
      | None => img_size_loop (Some img_size) (Some img_size) rest
      | Some ref =>
          if negb (img_size_eqb img_size ref) then
            Raise (Exception msg_inconsistent_image_sizes)
          else img_size_loop ref_img_size (Some img_size) rest
      end
  end.

(** Lines 173 to 183 of [illumination_correction]: the result is
    [(img_size_y, img_size_x)]. *)
Definition illumination_correction_img_size (list_indices : list indices)
  : result (Z * Z) :=
  do img_size <- img_size_loop None None list_indices;
  match img_size with
  | Some s => Ok s
  | None => Raise (NameError "img_size")
  end.

(** ** tasks/apply_registration_to_ROI_tables.py *)

(** A Python [dict] with integer keys, in insertion order. *)
Module Dict.
Section Dict.
Context {V : Type}.

Fixpoint get (d : list (Z * V)) (k : Z) : result V :=
  match d with
  | [] => Raise KeyError
  | (k', v) :: d' => if (k' =? k)%Z then Ok v else get d' k
  end.

Fixpoint mem (d : list (Z * V)) (k : Z) : bool :=
  match d with
  | [] => false
  | (k', _) :: d' => (k' =? k)%Z || mem d' k
  end.

(** [d[k] = v]: an existing key keeps its place. *)
Fixpoint set (d : list (Z * V)) (k : Z) (v : V) : list (Z * V) :=
  match d with
  | [] => [(k, v)]
  | (k', v') :: d' =>
      if (k' =? k)%Z then (k, v) :: d' else (k', v') :: set d' k v
  end.

Definition keys (d : list (Z * V)) : list Z := map fst d.
Definition values (d : list (Z * V)) : list V := map snd d.
End Dict.
End Dict.

(** [idx.get_loc(label)] when it is an integer: the position of a label
    that occurs once.  An absent label is a [KeyError]; for a label that
    occurs more than once pandas gives no single position, and the model
    raises ([float] refuses the Series that [DataFrame.loc] then
    returns). *)
Fixpoint get_loc (idx : list string) (label : string) : result nat :=
  match idx with
  | [] => Raise KeyError
  | l :: idx' =>
      if String.eqb l label then
        if existsb (String.eqb label) idx' then
          Raise (Exception (msg_external "label is not unique"))
        else Ok 0%nat
      else do i <- get_loc idx' label; Ok (S i)
  end.

Fixpoint is_unique (idx : list string) : bool :=
  match idx with
  | [] => true
  | l :: idx' => negb (existsb (String.eqb l) idx') && is_unique idx'
  end.

Fixpoint position (idx : list string) (label : string) : option nat :=
  match idx with
  | [] => None
  | l :: idx' =>
      if String.eqb l label then Some 0%nat
      else match position idx' label with
           | Some i => Some (S i)
           | None => None
           end
  end.

(** [idx.get_indexer([label])], by which AnnData turns a list of names into
    positions: pandas refuses an index that is not unique, AnnData a name
    that is not found. *)
Definition get_indexer (idx : list string) (label : string) : result nat :=
  if is_unique idx then
    match position idx label with
    | Some i => Ok i
    | None => Raise KeyError
    end
  else Raise InvalidIndexError.

Definition translation_columns : list string :=
  ["translation_z"; "translation_y"; "translation_x"].

(** One entry of [zattrs["well"]["images"]]. *)
Record image : Type := mk_image {
  acquisition : option Z;
  path : string
}.

Fixpoint get_acquisition_paths_loop (images : list image)
    (acquisition_dict : list (Z * string)) : result (list (Z * string)) :=
  match images with
  | [] => Ok acquisition_dict
  | im :: rest =>
      match acquisition im with
      | None =>
          Raise (ValueError (msg_external "no 'acquisition' metadata"))
      | Some a =>
          if Dict.mem acquisition_dict a then
            Raise (NotImplementedError
                     (msg_external "multiple images of the same acquisition"))
          else
            get_acquisition_paths_loop rest
              (Dict.set acquisition_dict a (path im))
      end
  end.

Definition get_acquisition_paths (images : list image)
  : result (list (Z * string)) :=
  get_acquisition_paths_loop images [].

Section Registration.

(** The numbers held by a table, with the [+], [-] and [<=] of Python
    floats on them; [zero] is [0.0]. *)
Context {num : Type}.
Variable zero : num.
Variables add sub : num -> num -> num.
Variable leb : num -> num -> bool.

(** A float is a number or NaN ([None]).  Arithmetic with NaN gives NaN,
    a comparison with NaN is false. *)
Definition float : Type := option num.

Definition fadd (a b : float) : float :=
  match a, b with
  | Some x, Some y => Some (add x y)
  | _, _ => None
  end.

Definition fsub (a b : float) : float :=
  match a, b with
  | Some x, Some y => Some (sub x y)
  | _, _ => None
  end.

Definition fle (a b : float) : bool :=
  match a, b with
  | Some x, Some y => leb x y
  | _, _ => false
  end.

Definition fge (a b : float) : bool := fle b a.

(** An AnnData table: [obs.index], [var.index] and the matrix [X], one
    row per observation. *)
Record AnnData : Type := mk_AnnData {
  obs_names : list string;
  var_names : list string;
  X : list (list float)
}.

Record DataFrame : Type := mk_DataFrame {
  index : list string;
  columns : list string;
  values : list (list float)
}.

(** [table[[roi], [column]].X], as the number it holds. *)
Definition cell (table : AnnData) (roi column : string) : result float :=
  do i <- get_indexer (obs_names table) roi;
  do j <- get_indexer (var_names table) column;
  do row <- Py.list_index (X table) i;
  Py.list_index row j.

(** [table[[roi], [column]] = v]. *)
Definition set_cell (table : AnnData) (roi column : string) (v : float)
  : result AnnData :=
  do i <- get_indexer (obs_names table) roi;
  do j <- get_indexer (var_names table) column;
  do row <- Py.list_index (X table) i;
  do _ <- Py.list_index row j;
  Ok (mk_AnnData (obs_names table) (var_names table)
        (<[i := <[j := v]> row]> (X table))).

(** [float(df.loc[roi, column])]. *)
Definition loc (df : DataFrame) (roi column : string) : result float :=
  do i <- get_loc (index df) roi;
  do j <- get_loc (columns df) column;
  do row <- Py.list_index (values df) i;
  Py.list_index row j.

Definition to_df (table : AnnData) : DataFrame :=
  mk_DataFrame (obs_names table) (var_names table) (X table).

(** [df.loc[:, labels]] on a frame whose column labels are distinct. *)
Definition loc_columns (df : DataFrame) (labels : list string)
  : result DataFrame :=
  do js <- map_result (get_loc (columns df)) labels;
  do rows <- map_result (fun row => map_result (Py.list_index row) js)
               (values df);
  Ok (mk_DataFrame (index df) labels rows).

(** *** add_zero_translation_columns *)

Definition isin (labels : list string) (l : string) : bool :=
  existsb (String.eqb l) labels.

(** [ad.concat] along the variables, of two tables with the same
    observations.  The two tables are joined on their observations, which
    pandas refuses with a [ValueError] when a name of the index occurs
    twice. *)
Definition add_zero_translation_columns (ad_table : AnnData)
  : result AnnData :=
  let columns := ["translation_z"; "translation_y"; "translation_x"] in
  if existsb (isin columns) (var_names ad_table) then
    Raise (ValueError msg_already_translation_columns)
  else if negb (is_unique (obs_names ad_table)) then
    Raise (ValueError
             (msg_external "cannot reindex on an axis with duplicate labels"))
  else
    let zeros := [Some zero; Some zero; Some zero] in
    Ok (mk_AnnData (obs_names ad_table)
          (var_names ad_table ++ columns)
          (map (fun row => row ++ zeros) (X ad_table))).

(** *** calculate_min_max_across_dfs *)

(** The loops of [np.maximum] and [np.minimum] over arrays of Python
    objects. *)
Definition npy_ObjectMax (i1 i2 : float) : float :=
  if fge i1 i2 then i1 else i2.

Definition npy_ObjectMin (i1 i2 : float) : float :=
  if fle i1 i2 then i1 else i2.

Fixpoint zip_row (f : float -> float -> float) (a b : list float)
  : result (list float) :=
  match a, b with
  | [], [] => Ok []
  | x :: a', y :: b' => do r <- zip_row f a' b'; Ok (f x y :: r)
  | _, _ => Raise (ValueError (msg_external "operands could not be broadcast"))
  end.

(** A binary ufunc on two matrices of one shape.  (numpy also accepts
    shapes that broadcast; the task compares the ROI names of all tables
    before it gets here.) *)
Fixpoint ufunc (f : float -> float -> float) (a b : list (list float))
  : result (list (list float)) :=
  match a, b with
  | [], [] => Ok []
  | x :: a', y :: b' =>
      do r <- zip_row f x y; do rs <- ufunc f a' b'; Ok (r :: rs)
  | _, _ => Raise (ValueError (msg_external "operands could not be broadcast"))
  end.

(** [pd.DataFrame(index=..., columns=...)]: every entry is NaN. *)
Definition empty_frame (idx cols : list string) : DataFrame :=
  mk_DataFrame idx cols
    (map (fun _ => map (fun _ => None) cols) idx).

Fixpoint min_max_loop (tables_list : list DataFrame)
    (max_df min_df : DataFrame) : result (DataFrame * DataFrame) :=
  match tables_list with
  | [] => Ok (max_df, min_df)
  | table :: rest =>
      do mx <- ufunc npy_ObjectMax (values max_df) (values table);
      let max_df := mk_DataFrame (index max_df) (columns max_df) mx in
      do mn <- ufunc npy_ObjectMin (values min_df) (values table);
      let min_df := mk_DataFrame (index min_df) (columns min_df) mn in
      min_max_loop rest max_df min_df
  end.

Definition calculate_min_max_across_dfs (tables_list : list DataFrame)
  : result (DataFrame * DataFrame) :=
  do t0 <- Py.list_index tables_list 0;
  let max_df := empty_frame (index t0) (columns t0) in
  let min_df := empty_frame (index t0) (columns t0) in
  min_max_loop tables_list max_df min_df.

(** *** apply_registration_to_single_ROI_table *)

(** [table[[roi], [column]] = table[[roi], [column]].X
      + float(max_df.loc[roi, translation]) - table[[roi], [translation]].X] *)
Definition shift_position (max_df : DataFrame) (roi column translation : string)
    (roi_table : AnnData) : result AnnData :=
  do p <- cell roi_table roi column;
  do mx <- loc max_df roi translation;
  do own <- cell roi_table roi translation;
  set_cell roi_table roi column (fsub (fadd p mx) own).

(** [table[[roi], [column]] = table[[roi], [column]].X
      - float(max_df.loc[roi, translation])
      + float(min_df.loc[roi, translation])] *)
Definition shrink_extent (max_df min_df : DataFrame)
    (roi column translation : string) (roi_table : AnnData)
  : result AnnData :=
  do l <- cell roi_table roi column;
  do mx <- loc max_df roi translation;
  do mn <- loc min_df roi translation;
  set_cell roi_table roi column (fadd (fsub l mx) mn).

Definition register_roi (max_df min_df : DataFrame) (roi : string)
    (roi_table : AnnData) : result AnnData :=
  do t <- shift_position max_df roi "z_micrometer" "translation_z" roi_table;
  do t <- shift_position max_df roi "y_micrometer" "translation_y" t;
  do t <- shift_position max_df roi "x_micrometer" "translation_x" t;
  do t <- shrink_extent max_df min_df roi "len_z_micrometer" "translation_z" t;
  do t <- shrink_extent max_df min_df roi "len_y_micrometer" "translation_y" t;
  shrink_extent max_df min_df roi "len_x_micrometer" "translation_x" t.

(** The result is the copy that the loop updates; the argument is left as
    it was. *)
Fixpoint apply_registration_to_single_ROI_table (roi_table : AnnData)
    (max_df min_df : DataFrame) (rois : list string) : result AnnData :=
  match rois with
  | [] => Ok roi_table
  | roi :: rest =>
      do t <- register_roi max_df min_df roi roi_table;
      apply_registration_to_single_ROI_table t max_df min_df rest
  end.

(** *** apply_registration_to_ROI_tables *)

(** What the task reads and the two helpers of [lib_regions_of_interest]
    it calls: [read_zarr acq] is
    [ad.read_zarr(f"{well_zarr}/{acq}/tables/{roi_table}")]. *)
Variable read_zarr : Z -> result AnnData.
Variable are_ROI_table_columns_valid : AnnData -> result unit.
Variable reset_origin : AnnData -> result AnnData.

(** The tables written so far, each under its acquisition and its name,
    and the exception that ended the task, if any. *)
Record outcome : Type := mk_outcome {
  written : list (Z * string * AnnData);
  raised : option exn
}.

Definition count_isin (labels idx : list string) : nat :=
  length (filter (fun l => isin labels l) idx).

(** The loop that collects the ROI tables (lines 102 to 123). *)
Fixpoint collect_roi_tables (roi_table : string) (reference_cycle : Z)
    (acqs : list Z) (roi_tables : list (Z * AnnData))
  : result (list (Z * AnnData)) :=
  match acqs with
  | [] => Ok roi_tables
  | acq :: rest =>
      do curr_ROI_table <- read_zarr acq;
      do curr_ROI_table <-
        (if (acq =? reference_cycle)%Z
         then add_zero_translation_columns curr_ROI_table
         else Ok curr_ROI_table);
      do _ <- are_ROI_table_columns_valid curr_ROI_table;
      if negb (count_isin translation_columns (var_names curr_ROI_table)
               =? 3)%nat then
        Raise (ValueError (msg_no_translation_columns acq roi_table))
      else
        collect_roi_tables roi_table reference_cycle rest
          (Dict.set roi_tables acq curr_ROI_table)
  end.

(** [for acq, t in roi_tables.items(): roi_tables[acq] = reset_origin(t)] *)
Definition reset_origins (roi_tables : list (Z * AnnData))
  : result (list (Z * AnnData)) :=
  map_result (fun '(acq, t) => do t' <- reset_origin t; Ok (acq, t'))
    roi_tables.

(** [a == b] on two pandas indexes. *)
Definition index_eq (a b : list string) : result (list bool) :=
  if (length a =? length b)%nat then
    Ok (map (fun '(x, y) => String.eqb x y) (combine a b))
  else Raise (ValueError msg_lengths_must_match).

Definition all (l : list bool) : bool := forallb (fun b => b) l.

Fixpoint same_ROIs_loop (reference_cycle : Z) (rois : list string)
    (items : list (Z * AnnData)) : result unit :=
  match items with
  | [] => Ok tt
  | (acq, acq_roi_table) :: rest =>
      do eq <- index_eq (obs_names acq_roi_table) rois;
      if negb (all eq) then
        Raise (ValueError
                 (msg_not_same_ROIs acq reference_cycle
                    (obs_names acq_roi_table) rois))
      else same_ROIs_loop reference_cycle rois rest
  end.

(** The check that all acquisitions have the same ROIs (lines 134 to
    143); it returns [rois]. *)
Definition check_same_ROIs (reference_cycle : Z)
    (roi_tables : list (Z * AnnData)) : result (list string) :=
  do ref <- Dict.get roi_tables reference_cycle;
  let rois := obs_names ref in
  do _ <- same_ROIs_loop reference_cycle rois roi_tables;
  Ok rois.

(** The loop that registers and writes one table per acquisition (lines
    153 to 170). *)
Fixpoint write_loop (new_roi_table : string) (acqs : list Z)
    (roi_tables : list (Z * AnnData)) (max_df min_df : DataFrame)
    (rois : list string) (done : list (Z * string * AnnData)) : outcome :=
  match acqs with
  | [] => mk_outcome done None
  | acq :: rest =>
      match (do t <- Dict.get roi_tables acq;
             apply_registration_to_single_ROI_table t max_df min_df rois)
      with
      | Raise e => mk_outcome done (Some e)
      | Ok shifted =>
          write_loop new_roi_table rest roi_tables max_df min_df rois
            (done ++ [(acq, new_roi_table, shifted)])
      end
  end.

Definition apply_registration_to_ROI_tables (images : list image)
    (roi_table : string) (reference_cycle : Z)
    (new_roi_table : option string) : outcome :=
  let new_roi_table :=
    match new_roi_table with
    | Some name => if String.eqb name "" then "registered_" +:+ roi_table
                   else name
    | None => "registered_" +:+ roi_table
    end in
  let prepared :=
    do acquisition_dict <- get_acquisition_paths images;
    do roi_tables <-
      collect_roi_tables roi_table reference_cycle
        (Dict.keys acquisition_dict) [];
    do roi_tables <- reset_origins roi_tables;
    do rois <- check_same_ROIs reference_cycle roi_tables;
    do roi_table_dfs <-
      map_result (fun t => loc_columns (to_df t) translation_columns)
        (Dict.values roi_tables);
    do '(max_df, min_df) <- calculate_min_max_across_dfs roi_table_dfs;
    Ok (acquisition_dict, roi_tables, max_df, min_df, rois) in
  match prepared with
  | Raise e => mk_outcome [] (Some e)
  | Ok (acquisition_dict, roi_tables, max_df, min_df, rois) =>
      write_loop new_roi_table (Dict.keys acquisition_dict) roi_tables
        max_df min_df rois []
  end.

End Registration.

(** * Specification vocabulary *)

(** A well label of the data model: the row is made of letters and the
    column of digits, one letter with two digits or two letters with
    three. *)
Definition letter (c : ascii) : bool :=
  let n := N_of_ascii c in
  ((65 <=? n)%N && (n <=? 90)%N) || ((97 <=? n)%N && (n <=? 122)%N).

Definition well_label (row col : string) : Prop :=
  Py.all_chars letter row = true
  /\ Py.all_chars Py.re_0_9 col = true
  /\ ((String.length row = 1%nat /\ String.length col = 2%nat)
      \/ (String.length row = 2%nat /\ String.length col = 3%nat)).

(** The lexicographic order on pairs of strings. *)
Definition tuple_le (p q : string * string) : Prop :=
  String.le (fst p) (fst q) /\ (fst p = fst q -> String.le (snd p) (snd q)).

(** The result of splitting on the runs of [[0-9]]: texts without a
    character of [[0-9]] alternate with non-empty runs; a text between two
    runs is not empty (the runs are maximal), the first text may be empty
    when [first] is set, and so may the last. *)
Definition digit_run (d : string) : Prop :=
  d <> "" /\ Py.all_chars Py.re_0_9 d = true.

Definition plain_text (t : string) : Prop :=
  Py.all_chars (fun c => negb (Py.re_0_9 c)) t = true.

Inductive split_pieces : bool -> list string -> Prop :=
| split_pieces_last first t :
    plain_text t -> split_pieces first [t]
| split_pieces_run (first : bool) t d rest :
    plain_text t -> (first = false -> t <> "") -> digit_run d ->
    split_pieces false rest -> split_pieces first (t :: d :: rest).

(** The key/value pairs of an alternating list [k1; v1; k2; v2; ...]. *)
Fixpoint key_value_pairs (l : list string) : list (string * string) :=
  match l with
  | k :: v :: l' => (k, v) :: key_value_pairs l'
  | _ => []
  end.

(** [output[k] = v] for each pair in turn. *)
Definition update_all (pairs : list (string * string))
    (output : gmap string string) : gmap string string :=
  fold_left (fun d kv => <[fst kv := snd kv]> d) pairs output.

(** The alternating list of a list of pairs. *)
Fixpoint flatten_pairs (pairs : list (string * string)) : list string :=
  match pairs with
  | [] => []
  | (k, v) :: pairs' => k :: v :: flatten_pairs pairs'
  end.

(** A key that is not all digits, with a value that is. *)
Definition pair_ok (kv : string * string) : Prop :=
  Py.isdigit (fst kv) = false /\ Py.isdigit (snd kv) = true.

(** The pieces of a metadata token end in an empty string, are 13, and
    pair each key that is not all digits with a value that is. *)
Definition token_ok (pieces : list string) : Prop :=
  List.last pieces "" = ""
  /\ length pieces = 13%nat
  /\ Forall pair_ok (key_value_pairs (List.removelast pieces)).

Definition six_digits (f : string) : bool :=
  (String.length f =? 6)%nat && Py.isdigit f.

(** The plate name as the specification derives it from the fields of the
    prefix: the barcode rule, then the scan date and time rule, then the
    raw prefix. *)
Definition plate_name_by_rules (prefix_fields : list string) : string :=
  match prefix_fields with
  | [f0; f1; f2] =>
      if six_digits f1 && six_digits f2 then f0
      else Str.join "_" prefix_fields
  | [f0; f1; f2; f3] =>
      if six_digits f0 && six_digits f1 && six_digits f2 && six_digits f3
      then "RS" +:+ f0 +:+ f1
      else Str.join "_" prefix_fields
  | _ => Str.join "_" prefix_fields
  end.

(** The three axes, with the columns of a ROI table that belong to each. *)
Inductive axis : Type := axis_z | axis_y | axis_x.

Definition position_column (a : axis) : string :=
  match a with
  | axis_z => "z_micrometer"
  | axis_y => "y_micrometer"
  | axis_x => "x_micrometer"
  end.

Definition extent_column (a : axis) : string :=
  match a with
  | axis_z => "len_z_micrometer"
  | axis_y => "len_y_micrometer"
  | axis_x => "len_x_micrometer"
  end.

Definition translation_column (a : axis) : string :=
  match a with
  | axis_z => "translation_z"
  | axis_y => "translation_y"
  | axis_x => "translation_x"
  end.

(** The place of an axis among [translation_columns]. *)
Definition axis_index (a : axis) : nat :=
  match a with axis_z => 0 | axis_y => 1 | axis_x => 2 end.

(** Entry [(i, j)] of a matrix given by its rows. *)
Definition entry {A} (m : list (list A)) (i j : nat) : option A :=
  match m !! i with
  | Some row => row !! j
  | None => None
  end.

(** A matrix of [n] rows and [k] columns. *)
Definition shape {A} (n k : nat) (m : list (list A)) : Prop :=
  length m = n /\ Forall (fun row => length row = k) m.

Section RegistrationVocabulary.

Context {num : Type}.
Variable leb : num -> num -> bool.

Definition is_max (m : num) (xs : list num) : Prop :=
  In m xs /\ forall x, In x xs -> leb x m = true.

Definition is_min (m : num) (xs : list num) : Prop :=
  In m xs /\ forall x, In x xs -> leb m x = true.

(** A ROI table over the ROIs [rois]: one row of [X] per ROI, the three
    translation columns, and for every ROI a position, an extent and a
    translation that is a number, on each axis. *)
Definition roi_table_ok (rois : list string) (t : @AnnData num) : Prop :=
  obs_names t = rois
  /\ length (X t) = length rois
  /\ (forall a, is_ok (get_loc (var_names t) (translation_column a)) = true)
  /\ forall roi a,
      In roi rois ->
      exists p l own,
        cell t roi (position_column a) = Ok p
        /\ cell t roi (extent_column a) = Ok l
        /\ cell t roi (translation_column a) = Ok (Some own).

(** The translation of [roi] along [a] in [t], when it is a number. *)
Definition translation_of (roi : string) (a : axis) (t : @AnnData num)
  : option num :=
  match cell t roi (translation_column a) with
  | Ok (Some x) => Some x
  | _ => None
  end.

(** The translations of [roi] along [a] across the tables. *)
Definition translations (roi : string) (a : axis)
    (tables : list (@AnnData num)) : list num :=
  omap (translation_of roi a) tables.

(** [df] is the frame of the translations of the ROI table [t]. *)
Definition frame_of (rois : list string) (t : @AnnData num)
    (df : @DataFrame num) : Prop :=
  loc_columns (to_df t) translation_columns = Ok df
  /\ index df = rois /\ columns df = translation_columns
  /\ shape (length rois) 3 (values df)
  /\ forall roi a i,
      get_loc rois roi = Ok i ->
      exists own,
        cell t roi (translation_column a) = Ok (Some own)
        /\ entry (values df) i (axis_index a) = Some (Some own).

End RegistrationVocabulary.

(** * Example tables *)

(** Two fields of view in a reference cycle and in a second cycle that is
    shifted against it, with numbers in [Z]. *)
Definition roi_columns : list string :=
  ["x_micrometer"; "y_micrometer"; "z_micrometer";
   "len_x_micrometer"; "len_y_micrometer"; "len_z_micrometer"].

Definition example_reference : @AnnData Z :=
  mk_AnnData ["FOV_1"; "FOV_2"] roi_columns
    [[Some 0; Some 0; Some 0; Some 100; Some 80; Some 10];
     [Some 100; Some 0; Some 0; Some 100; Some 80; Some 10]]%Z.

Definition example_cycle0 : @AnnData Z :=
  mk_AnnData ["FOV_1"; "FOV_2"] (roi_columns ++ translation_columns)
    [[Some 0; Some 0; Some 0; Some 100; Some 80; Some 10;
      Some 0; Some 0; Some 0];
     [Some 100; Some 0; Some 0; Some 100; Some 80; Some 10;
      Some 0; Some 0; Some 0]]%Z.

Definition example_cycle1 : @AnnData Z :=
  mk_AnnData ["FOV_1"; "FOV_2"] (roi_columns ++ translation_columns)
    [[Some 0; Some 0; Some 0; Some 100; Some 80; Some 10;
      Some 0; Some (-3); Some 5];
     [Some 100; Some 0; Some 0; Some 100; Some 80; Some 10;
      Some 1; Some 2; Some (-4)]]%Z.

Definition example_cycle1_reordered : @AnnData Z :=
  mk_AnnData ["FOV_2"; "FOV_1"] (roi_columns ++ translation_columns)
    [[Some 100; Some 0; Some 0; Some 100; Some 80; Some 10;
      Some 1; Some 2; Some (-4)];
     [Some 0; Some 0; Some 0; Some 100; Some 80; Some 10;
      Some 0; Some (-3); Some 5]]%Z.

Definition example_images : list image :=
  [mk_image (Some 0%Z) "0"; mk_image (Some 1%Z) "1"].

Definition example_read_zarr (acq : Z) : result (@AnnData Z) :=
  if (acq =? 0)%Z then Ok example_reference
  else if (acq =? 1)%Z then Ok example_cycle1
  else Raise (Exception (msg_external "no such table")).

(** The translations of the two cycles as frames, the frames of their
    maxima and minima, and the second cycle registered with them. *)
Definition example_frame0 : @DataFrame Z :=
  mk_DataFrame ["FOV_1"; "FOV_2"] translation_columns
    [[Some 0; Some 0; Some 0]; [Some 0; Some 0; Some 0]]%Z.

Definition example_frame1 : @DataFrame Z :=
  mk_DataFrame ["FOV_1"; "FOV_2"] translation_columns
    [[Some 0; Some (-3); Some 5]; [Some 1; Some 2; Some (-4)]]%Z.

Definition example_max_df : @DataFrame Z :=
  mk_DataFrame ["FOV_1"; "FOV_2"] translation_columns
    [[Some 0; Some 0; Some 5]; [Some 1; Some 2; Some 0]]%Z.

Definition example_min_df : @DataFrame Z :=
  mk_DataFrame ["FOV_1"; "FOV_2"] translation_columns
    [[Some 0; Some (-3); Some 0]; [Some 0; Some 0; Some (-4)]]%Z.

Definition example_registered1 : @AnnData Z :=
  mk_AnnData ["FOV_1"; "FOV_2"] (roi_columns ++ translation_columns)
    [[Some 0; Some 3; Some 0; Some 95; Some 77; Some 10;
      Some 0; Some (-3); Some 5];
     [Some 104; Some 0; Some 0; Some 96; Some 78; Some 9;
      Some 1; Some 2; Some (-4)]]%Z.

(** * Properties *)

(** ** Strings *)

Lemma length_1_inv (s : string) :
  String.length s = 1%nat -> exists a, s = String a "".
Proof. destruct s as [|a [|b s]]; simpl; intros H; try discriminate; eauto. Qed.

Lemma length_2_inv (s : string) :
  String.length s = 2%nat -> exists a b, s = String a (String b "").
Proof.
  destruct s as [|a [|b [|c s]]]; simpl; intros H; try discriminate; eauto.
Qed.

Lemma length_3_inv (s : string) :
  String.length s = 3%nat ->
  exists a b c, s = String a (String b (String c "")).
Proof.
  destruct s as [|a [|b [|c [|d s]]]]; simpl; intros H;
    try discriminate; eauto.
Qed.

Lemma count_cons_0 (c d : ascii) (s : string) :
  Str.count c (String d s) = 0%nat -> d <> c /\ Str.count c s = 0%nat.
Proof.
  simpl. destruct (Ascii.eqb_spec d c); [discriminate | auto].
Qed.

(** ** The well codec *)

Lemma ltb_true_le (a b : string) : String.ltb a b = true -> String.le a b.
Proof.
  unfold String.ltb, String.le, String.leb.
  destruct (a ?= b)%string; simpl; intros; try discriminate; exact I.
Qed.

Lemma ltb_false_le (a b : string) : String.ltb a b = false -> String.le b a.
Proof.
  unfold String.ltb, String.le, String.leb.
  rewrite (String.compare_antisym a b).
  destruct (b ?= a)%string; simpl; intros; try discriminate; exact I.
Qed.

Lemma tuple_lt_true_le (p q : string * string) :
  tuple_lt p q = true -> tuple_le p q.
Proof.
  unfold tuple_lt, tuple_le, str_lt.
  destruct (String.eqb_spec (fst p) (fst q)) as [E|E]; intros H.
  - rewrite E. split; [reflexivity | intros _; by apply ltb_true_le].
  - split; [by apply ltb_true_le | intros; contradiction].
Qed.

Lemma tuple_lt_false_le (p q : string * string) :
  tuple_lt p q = false -> tuple_le q p.
Proof.
  unfold tuple_lt, tuple_le, str_lt.
  destruct (String.eqb_spec (fst p) (fst q)) as [E|E]; intros H.
  - rewrite E. split; [reflexivity | intros _; by apply ltb_false_le].
  - split; [by apply ltb_false_le | intros E'; by symmetry in E'].
Qed.

Lemma tuple_le_trans (p q r : string * string) :
  tuple_le p q -> tuple_le q r -> tuple_le p r.
Proof.
  intros [H1 H2] [H3 H4]. split.
  - by etrans.
  - intros E.
    assert (E1 : fst p = fst q).
    { apply (anti_symm String.le); [done | by rewrite E]. }
    assert (E2 : fst q = fst r) by congruence.
    transitivity (snd q); [apply H2, E1 | apply H4, E2].
Qed.

Lemma insert_sorted_perm x l : Permutation (x :: l) (insert_sorted x l).
Proof.
  induction l as [|y l IH]; simpl; [done|].
  destruct (tuple_lt x y); [done|].
  rewrite perm_swap. by constructor.
Qed.

Lemma insert_sorted_sorted x l :
  StronglySorted tuple_le l -> StronglySorted tuple_le (insert_sorted x l).
Proof.
  induction 1 as [|y l Hs IH Hall]; simpl.
  - repeat constructor.
  - destruct (tuple_lt x y) eqn:E.
    + constructor; [by constructor|].
      apply tuple_lt_true_le in E. constructor; [done|].
      eapply Forall_impl; [exact Hall|]. intros z Hz. by eapply tuple_le_trans.
    + constructor; [done|].
      apply tuple_lt_false_le in E.
      rewrite <- (insert_sorted_perm x l). by constructor.
Qed.

Lemma sorted_from_perm acc l :
  Permutation (acc ++ l) (fold_left (fun a x => insert_sorted x a) l acc).
Proof.
  revert acc. induction l as [|x l IH]; intros acc; simpl.
  - by rewrite app_nil_r.
  - rewrite <- IH, <- insert_sorted_perm.
    symmetry. apply Permutation_middle.
Qed.

Lemma sorted_from_sorted acc l :
  StronglySorted tuple_le acc ->
  StronglySorted tuple_le (fold_left (fun a x => insert_sorted x a) l acc).
Proof.
  revert acc. induction l as [|x l IH]; intros acc H; simpl; [done|].
  by apply IH, insert_sorted_sorted.
Qed.

Lemma sorted_perm l : Permutation l (sorted l).
Proof. apply (sorted_from_perm [] l). Qed.

Lemma sorted_sorted l : StronglySorted tuple_le (sorted l).
Proof. apply sorted_from_sorted. constructor. Qed.

Lemma map_result_ok {A B} (f : A -> result B) (l : list A) :
  Forall (fun x => is_ok (f x) = true) l ->
  exists l', map_result f l = Ok l' /\ Forall2 (fun x y => f x = Ok y) l l'.
Proof.
  induction 1 as [|x l Hx _ [l' [E F]]]; simpl.
  - exists []. split; [done | constructor].
  - destruct (f x) as [y|] eqn:Ey; [|discriminate].
    exists (y :: l'). simpl. rewrite E. split; [done | by constructor].
Qed.

Lemma eqb_neq_false (d c : ascii) : d <> c -> Ascii.eqb d c = false.
Proof. intros H. by apply Ascii.eqb_neq. Qed.

Ltac string_shape H :=
  first [ apply length_1_inv in H as [? ->]
        | apply length_2_inv in H as [? [? ->]]
        | apply length_3_inv in H as [? [? [? ->]]] ].

Ltac no_dots :=
  repeat match goal with
    | H : Str.count _ (String _ _) = 0%nat |- _ =>
        apply count_cons_0 in H as [? H]
    end.

(** C5.  A one-character row and a two-character column encode to their
    concatenation; a two-character row [ab] and a three-character column
    [xyz] encode to [axy.bz], that is
    [row[0] + col[0:2] + "." + row[1] + col[2]]; and the three examples of
    the specification evaluate as stated. *)
Theorem get_filename_well_id_shapes :
  (forall row col,
      String.length row = 1%nat -> String.length col = 2%nat ->
      get_filename_well_id row col = Ok (row +:+ col))
  /\ (forall row col,
         String.length row = 2%nat -> String.length col = 3%nat ->
         exists a b x y z,
           row = String a (String b "")
           /\ col = String x (String y (String z ""))
           /\ Str.index row 0 = Ok (String a "")
           /\ Str.slice col 0 2 = String x (String y "")
           /\ Str.index row 1 = Ok (String b "")
           /\ Str.index col 2 = Ok (String z "")
           /\ get_filename_well_id row col
              = Ok (String a (String x (String y
                     (String "." (String b (String z "")))))))
  /\ get_filename_well_id "A" "01" = Ok "A01"
  /\ get_filename_well_id "Aa" "011" = Ok "A01.a1"
  /\ get_filename_well_id "Bc" "023" = Ok "B02.c3".
Proof.
  split; [|split; [|repeat split]].
  - intros row col Hr Hc. unfold get_filename_well_id.
    by rewrite Hr, Hc.
  - intros row col Hr Hc. string_shape Hr. string_shape Hc.
    eexists _, _, _, _, _. repeat split.
Qed.

(** C6.  Encoding raises [NotImplementedError] for every pair whose
    lengths are neither (1, 2) nor (2, 3), as for [("A", "1")] and
    [("Aaa", "11")]; decoding raises [NotImplementedError] for every id that
    is neither of length 3 without a dot nor of length 6 with exactly one
    dot. *)
Theorem well_shape_errors :
  (forall row col,
      ~ (String.length row = 1%nat /\ String.length col = 2%nat) ->
      ~ (String.length row = 2%nat /\ String.length col = 3%nat) ->
      get_filename_well_id row col
      = Raise (NotImplementedError (msg_wells_row_col row col)))
  /\ (forall well_id,
         ~ (String.length well_id = 3%nat /\ Str.count "." well_id = 0%nat) ->
         ~ (String.length well_id = 6%nat /\ Str.count "." well_id = 1%nat) ->
         _extract_row_col_from_well_id well_id
         = Raise (NotImplementedError (msg_wells_like well_id)))
  /\ get_filename_well_id "A" "1"
     = Raise (NotImplementedError (msg_wells_row_col "A" "1"))
  /\ get_filename_well_id "Aaa" "11"
     = Raise (NotImplementedError (msg_wells_row_col "Aaa" "11")).
Proof.
  split; [|split; [|split; reflexivity]].
  - intros row col H1 H2. unfold get_filename_well_id.
    destruct (String.length row =? 1)%nat eqn:E1,
             (String.length col =? 2)%nat eqn:E2; simpl;
      try (apply Nat.eqb_eq in E1, E2; tauto);
      destruct (String.length row =? 2)%nat eqn:E3,
               (String.length col =? 3)%nat eqn:E4; simpl;
      try reflexivity; apply Nat.eqb_eq in E3, E4; tauto.
  - intros w H1 H2. unfold _extract_row_col_from_well_id.
    destruct (String.length w =? 3)%nat eqn:E1,
             (Str.count "." w =? 0)%nat eqn:E2; simpl;
      try (apply Nat.eqb_eq in E1, E2; tauto);
      destruct (String.length w =? 6)%nat eqn:E3,
               (Str.count "." w =? 1)%nat eqn:E4; simpl;
      try reflexivity; apply Nat.eqb_eq in E3, E4; tauto.
Qed.

(** For every row and column that contain no dot, of lengths (1, 2) or
    (2, 3), encoding succeeds and decoding the encoded id returns the
    pair. *)
Lemma decode_encode_no_dot (row col : string) :
  Str.count "." row = 0%nat ->
  Str.count "." col = 0%nat ->
  (String.length row = 1%nat /\ String.length col = 2%nat)
  \/ (String.length row = 2%nat /\ String.length col = 3%nat) ->
  exists well_id,
    get_filename_well_id row col = Ok well_id
    /\ _extract_row_col_from_well_id well_id = Ok (row, col).
Proof.
  intros Dr Dc [[Hr Hc]|[Hr Hc]]; string_shape Hr; string_shape Hc;
    no_dots; eexists; (split; [reflexivity|]);
    unfold _extract_row_col_from_well_id; cbv [String.append]; cbn;
    rewrite ?eqb_neq_false by assumption; cbn;
    rewrite ?eqb_neq_false by assumption; reflexivity.
Qed.

Lemma all_chars_no_dot (p : ascii -> bool) (s : string) :
  p "."%char = false -> Py.all_chars p s = true -> Str.count "." s = 0%nat.
Proof.
  intros Hp. induction s as [|c s IH]; simpl; [done|].
  intros [Hc Hs]%andb_true_iff. rewrite (IH Hs).
  destruct (Ascii.eqb_spec c "."); [congruence | done].
Qed.

(** C4.  For every well label, a row of one letter with a column of two
    digits or a row of two letters with a column of three digits, encoding
    succeeds and decoding the encoded id returns the pair. *)
Theorem decode_encode_well_label (row col : string) :
  well_label row col ->
  exists well_id,
    get_filename_well_id row col = Ok well_id
    /\ _extract_row_col_from_well_id well_id = Ok (row, col).
Proof.
  intros (Hrow & Hcol & Hlen). apply decode_encode_no_dot; [| |exact Hlen].
  - by apply (all_chars_no_dot letter).
  - by apply (all_chars_no_dot Py.re_0_9).
Qed.

Lemma decode_encode_well_label_witness :
  exists well_id,
    get_filename_well_id "Bc" "023" = Ok well_id
    /\ _extract_row_col_from_well_id well_id = Ok ("Bc", "023").
Proof.
  apply (decode_encode_well_label "Bc" "023").
  split; [reflexivity|]. split; [reflexivity|]. right. split; reflexivity.
Defined.

(** A column with a dot is not a column of a well label: [("A", ".1")]
    encodes to ["A.1"], which the decoder refuses. *)
Example dotted_column_not_decoded :
  get_filename_well_id "A" ".1" = Ok "A.1"
  /\ _extract_row_col_from_well_id "A.1"
     = Raise (NotImplementedError (msg_wells_like "A.1")).
Proof. repeat split. Qed.

(** C7.  When every id of the list decodes, [generate_row_col_split]
    returns the decoded pairs, rearranged in ascending lexicographic order
    of (row, col); on the list of the specification the result starts with
    [("Aa", "013")]. *)
Theorem generate_row_col_split_sorted :
  (forall wells,
      Forall (fun w => is_ok (_extract_row_col_from_well_id w) = true) wells ->
      exists pairs res,
        Forall2 (fun w p => _extract_row_col_from_well_id w = Ok p) wells pairs
        /\ generate_row_col_split wells = Ok res
        /\ Permutation pairs res
        /\ StronglySorted tuple_le res)
  /\ generate_row_col_split
       ["B03.d1"; "B05.b1"; "B07.c4"; "B07.c3"; "B07.a4"; "A01.a3"; "H08.d2"]
     = Ok [("Aa", "013"); ("Ba", "074"); ("Bb", "051"); ("Bc", "073");
           ("Bc", "074"); ("Bd", "031"); ("Hd", "082")].
Proof.
  split; [|reflexivity].
  intros wells H.
  destruct (map_result_ok _ _ H) as [pairs [E F]].
  exists pairs, (sorted pairs). unfold generate_row_col_split.
  rewrite E. simpl.
  repeat split; [done | apply sorted_perm | apply sorted_sorted].
Qed.

(** ** The size of the fields of view *)

Lemma img_size_eqb_spec (a b : Z * Z) : reflect (a = b) (img_size_eqb a b).
Proof.
  destruct a as [a1 a2], b as [b1 b2]. unfold img_size_eqb. simpl.
  destruct (Z.eqb_spec a1 b1), (Z.eqb_spec a2 b2); constructor; congruence.
Qed.

Lemma img_size_loop_same ref s l :
  Forall (fun i => img_size_of i = ref) l ->
  exists s', img_size_loop (Some ref) (Some s) l = Ok (Some s').
Proof.
  intros H. revert s. induction H as [|i l Hi _ IH]; intros s; simpl.
  - eauto.
  - destruct (img_size_eqb_spec (img_size_of i) ref); [|contradiction].
    simpl. apply IH.
Qed.

Lemma img_size_loop_differ ref s l :
  Exists (fun i => img_size_of i <> ref) l ->
  img_size_loop (Some ref) s l = Raise (Exception msg_inconsistent_image_sizes).
Proof.
  intros H. revert s. induction l as [|i l IH]; intros s.
  - inversion H.
  - simpl. destruct (img_size_eqb_spec (img_size_of i) ref) as [E|E]; simpl.
    + apply IH. inversion H; subst; [contradiction | assumption].
    + reflexivity.
Qed.

(** C3, as the code has it.  The check raises "inconsistent image sizes"
    exactly when two elements of [list_indices] differ in their
    (y extent, x extent); the z extent is not compared. *)
Theorem inconsistent_image_sizes_iff (list_indices : list indices) :
  illumination_correction_img_size list_indices
  = Raise (Exception msg_inconsistent_image_sizes)
  <-> exists a b, In a list_indices /\ In b list_indices
                  /\ img_size_of a <> img_size_of b.
Proof.
  unfold illumination_correction_img_size.
  destruct list_indices as [|i l]; simpl.
  - split; [discriminate | intros (a & _ & [] & _)].
  - destruct (decide (Exists (fun j => img_size_of j <> img_size_of i) l))
      as [E|E].
    + rewrite img_size_loop_differ by assumption. simpl. split; [|done].
      intros _. apply List.Exists_exists in E as (j & Hj & Hne).
      exists j, i. simpl. auto.
    + assert (F : Forall (fun j => img_size_of j = img_size_of i) l).
      { apply List.Forall_forall. intros j Hj.
        destruct (img_size_eqb_spec (img_size_of j) (img_size_of i)); [done|].
        exfalso. apply E, List.Exists_exists. eauto. }
      destruct (img_size_loop_same _ (img_size_of i) _ F) as [s' ->]. simpl.
      split; [discriminate|].
      intros (a & b & Ha & Hb & Hne). exfalso. apply Hne.
      rewrite List.Forall_forall in F.
      transitivity (img_size_of i).
      * destruct Ha as [<-|Ha]; [done | by apply F].
      * destruct Hb as [<-|Hb]; [done | symmetry; by apply F].
Qed.

(** C3, as stated, fails: two windows whose z extents are 1 and 5, with
    equal y and x extents, pass the check. *)
Lemma z_extent_not_compared_counterexample :
  let a := mk_indices 0 1 0 2 0 2 in
  let b := mk_indices 0 5 0 2 0 2 in
  (e_z a - s_z a = 1 /\ e_z b - s_z b = 5)%Z
  /\ illumination_correction_img_size [a; b] = Ok (2, 2)%Z.
Proof. repeat split. Qed.

(** ** The filename parser *)

Lemma split_pieces_no_sep c s :
  Forall (fun p => Str.count c p = 0%nat) (Str.split c s).
Proof.
  induction s as [|d s IH]; simpl.
  - by repeat constructor.
  - destruct (Ascii.eqb d c) eqn:E.
    + by constructor.
    + destruct (Str.split c s) as [|p ps].
      * repeat constructor. simpl. by rewrite E.
      * inversion IH; subst. constructor; [|done]. simpl. by rewrite E.
Qed.

Lemma split_no_sep c s : Str.count c s = 0%nat -> Str.split c s = [s].
Proof.
  induction s as [|d s IH]; simpl; [done|].
  destruct (Ascii.eqb d c); [discriminate|]. simpl.
  intros H. by rewrite IH.
Qed.

Lemma split_app_sep c x rest :
  Str.count c x = 0%nat ->
  Str.split c (x +:+ String c rest) = x :: Str.split c rest.
Proof.
  induction x as [|d x IH]; cbv [String.append]; fold String.append; simpl.
  - by rewrite Ascii.eqb_refl.
  - destruct (Ascii.eqb d c); [discriminate|]. simpl.
    intros H. by rewrite IH.
Qed.

Lemma split_join c l :
  l <> [] ->
  Forall (fun p => Str.count c p = 0%nat) l ->
  Str.split c (Str.join (String c "") l) = l.
Proof.
  intros Hne H. induction H as [|x l Hx Hl IH]; [done|].
  destruct l as [|y l].
  - simpl. by apply split_no_sep.
  - unfold Str.join in *.
    change (String.concat (String c "") (x :: y :: l))
      with (x +:+ String c (String.concat (String c "") (y :: l))).
    rewrite split_app_sep by done. by rewrite IH.
Qed.

Lemma get_plate_name_by_rules (prefix_fields : list string) :
  prefix_fields <> [] ->
  Forall (fun p => Str.count "_" p = 0%nat) prefix_fields ->
  get_plate_name (Str.join "_" prefix_fields)
  = plate_name_by_rules prefix_fields.
Proof.
  intros Hne H. unfold get_plate_name.
  rewrite (split_join "_" prefix_fields Hne H).
  destruct prefix_fields as [|f0 [|f1 [|f2 [|f3 [|f4 l]]]]]; try done.
  - unfold plate_name_by_rules, six_digits. cbn [length nth Nat.eqb andb].
    destruct (String.length f1 =? 6)%nat, (String.length f2 =? 6)%nat,
      (Py.isdigit f1), (Py.isdigit f2); reflexivity.
  - unfold plate_name_by_rules, six_digits. cbn [length nth Nat.eqb andb].
    destruct (String.length f0 =? 6)%nat, (String.length f1 =? 6)%nat,
      (String.length f2 =? 6)%nat, (String.length f3 =? 6)%nat,
      (Py.isdigit f0), (Py.isdigit f1), (Py.isdigit f2), (Py.isdigit f3);
      reflexivity.
Qed.

Lemma flatten_pairs_app (a b : list (string * string)) :
  flatten_pairs (a ++ b) = flatten_pairs a ++ flatten_pairs b.
Proof.
  induction a as [|[k v] a IH]; simpl; [done|]. by rewrite IH.
Qed.

Lemma flatten_pairs_length (a : list (string * string)) :
  length (flatten_pairs a) = (2 * length a)%nat.
Proof. induction a as [|[k v] a IH]; simpl; [done|]. rewrite IH. lia. Qed.

Lemma list_index_value (seen rest : list (string * string)) k v :
  Py.list_index (flatten_pairs (seen ++ (k, v) :: rest)) (2 * length seen + 1)
  = Ok v.
Proof.
  unfold Py.list_index. rewrite flatten_pairs_app. cbn [flatten_pairs].
  rewrite nth_error_app2 by (rewrite flatten_pairs_length; lia).
  rewrite flatten_pairs_length.
  replace (2 * length seen + 1 - 2 * length seen)%nat with 1%nat by lia.
  reflexivity.
Qed.

Lemma fill_output_pairs filename (seen pairs : list (string * string)) output :
  (Forall pair_ok pairs ->
   fill_output filename (flatten_pairs (seen ++ pairs)) (length seen)
     (map fst pairs) output
   = Ok (update_all pairs output))
  /\ (~ Forall pair_ok pairs ->
      exists m,
        fill_output filename (flatten_pairs (seen ++ pairs)) (length seen)
          (map fst pairs) output
        = Raise (ValueError m)).
Proof.
  revert seen output.
  induction pairs as [|[k v] pairs IH]; intros seen output.
  - split; [reflexivity | intros H; exfalso; apply H; constructor].
  - cbn [map fst fill_output]. rewrite list_index_value. cbn [bind].
    specialize (IH (seen ++ [(k, v)]) (<[k := v]> output)).
    rewrite <- app_assoc, length_app in IH. cbn [app length] in IH.
    replace (length seen + 1)%nat with (S (length seen)) in IH by lia.
    destruct IH as [IH1 IH2].
    destruct (Py.isdigit k) eqn:Ek; cbn [orb negb].
    { split; [|eauto].
      intros H. inversion H as [|? ? [H1 _] _]; subst. simpl in H1. congruence. }
    destruct (Py.isdigit v) eqn:Ev; cbn [orb negb].
    + split.
      * intros H. inversion H; subst. by apply IH1.
      * intros H. apply IH2. intros F. apply H. by constructor.
    + split; [|eauto].
      intros H. inversion H as [|? ? [_ H2] _]; subst. simpl in H2. congruence.
Qed.

(** The two ways [parse_filename] ends on a name of at least three
    fields. *)
Lemma parse_filename_cases (path_stem : string -> result string)
    (filename stem : string) :
  path_stem filename = Ok stem ->
  let fields := Str.split "_" stem in
  let pieces := Py.re_split_digits (List.last fields "") in
  let pairs := key_value_pairs (List.removelast pieces) in
  (3 <= length fields)%nat ->
  (token_ok pieces
   /\ length pairs = 6%nat
   /\ parse_filename path_stem filename
      = Ok (update_all pairs (plate_and_well fields)))
  \/ (~ token_ok pieces
      /\ exists m, parse_filename path_stem filename = Raise (ValueError m)).
Proof.
  intros Hstem fields pieces pairs Hlen.
  unfold parse_filename. rewrite Hstem. cbn [bind].
  fold fields. destruct (Nat.ltb_spec (length fields) 3); [lia|].
  fold pieces.
  destruct (String.eqb_spec (List.last pieces "") "") as [Hlast|Hlast];
    cbn [negb orb].
  2:{ right. split; [intros [? _]; contradiction | eauto]. }
  destruct (Nat.eqb_spec (length pieces) 13) as [H13|H13]; cbn [negb].
  2:{ right. split; [intros (_ & ? & _); contradiction | eauto]. }
  assert (Hflat : List.removelast pieces = flatten_pairs ([] ++ pairs)
                  /\ Py.every_other (List.removelast pieces) = map fst pairs
                  /\ length pairs = 6%nat).
  { subst pairs. clearbody pieces. clear Hlast.
    do 13 (destruct pieces as [|? pieces]; [discriminate H13|]).
    destruct pieces; [|discriminate H13].
    repeat split. }
  destruct Hflat as (Hflat & Hkeys & H6).
  rewrite Hkeys, Hflat.
  destruct (fill_output_pairs stem [] pairs (plate_and_well fields))
    as [Hok Hbad].
  cbn [length] in Hok, Hbad.
  destruct (decide (Forall pair_ok pairs)) as [F|F].
  - left. repeat split; try done. by apply Hok.
  - right. split; [intros (_ & _ & ?); contradiction | by apply Hbad].
Qed.

Lemma update_all_snoc pairs k v (d : gmap string string) :
  update_all (pairs ++ [(k, v)]) d = <[k := v]> (update_all pairs d).
Proof. unfold update_all. by rewrite fold_left_app. Qed.

Lemma update_all_is_Some pairs (d : gmap string string) k v :
  In (k, v) pairs -> is_Some (update_all pairs d !! k).
Proof.
  induction pairs as [|[k' v'] pairs IH] using rev_ind; [done|].
  rewrite update_all_snoc, in_app_iff. intros H.
  destruct (decide (k' = k)) as [->|Hne].
  - rewrite lookup_insert_eq. eauto.
  - rewrite lookup_insert_ne by done. apply IH.
    destruct H as [H|[H|[]]]; [done | congruence].
Qed.

Lemma update_all_lookup pairs (d : gmap string string) k v :
  NoDup (map fst pairs) -> In (k, v) pairs -> update_all pairs d !! k = Some v.
Proof.
  induction pairs as [|[k' v'] pairs IH] using rev_ind; [done|].
  rewrite update_all_snoc, map_app, in_app_iff. cbn [map fst].
  intros ND H. apply NoDup_app in ND as (ND & Hfresh & _).
  destruct H as [H|[H|[]]].
  - rewrite lookup_insert_ne; [by apply IH|].
    intros ->. apply (Hfresh k); [|by left].
    apply list_elem_of_In, in_map_iff. by exists (k, v).
  - injection H as -> ->. by rewrite lookup_insert_eq.
Qed.

Lemma update_all_lookup_other pairs (d : gmap string string) k :
  ~ In k (map fst pairs) -> update_all pairs d !! k = d !! k.
Proof.
  induction pairs as [|[k' v'] pairs IH] using rev_ind; [done|].
  rewrite update_all_snoc, map_app, in_app_iff. cbn [map fst]. intros H.
  rewrite lookup_insert_ne; [apply IH; tauto|].
  intros ->. apply H. right. by left.
Qed.

(** C8, as the code has it.  Parsing raises a [ValueError], and returns
    nothing, whenever the
    pieces of the last field (split on digit runs) do not end in an empty
    string, are not 13, or hold a key that is all digits or a value that
    is not; otherwise, on a name of at least three fields, parsing succeeds
    and its result is the dictionary of plate and well in which the six
    pairs have been assigned in order: each of the six keys is bound, and
    to the value of its pair when the six keys are distinct. *)
Theorem parse_filename_token (path_stem : string -> result string)
    (filename stem : string) :
  path_stem filename = Ok stem ->
  let fields := Str.split "_" stem in
  let pieces := Py.re_split_digits (List.last fields "") in
  let pairs := key_value_pairs (List.removelast pieces) in
  (~ token_ok pieces ->
   exists m, parse_filename path_stem filename = Raise (ValueError m))
  /\ ((3 <= length fields)%nat ->
      token_ok pieces ->
      length pairs = 6%nat
      /\ exists output,
          parse_filename path_stem filename = Ok output
          /\ output = update_all pairs (plate_and_well fields)
          /\ (forall k v, In (k, v) pairs -> is_Some (output !! k))
          /\ (NoDup (map fst pairs) ->
              forall k v, In (k, v) pairs -> output !! k = Some v)).
Proof.
  intros Hstem. cbv zeta.
  destruct (Nat.ltb_spec (length (Str.split "_" stem)) 3) as [Hshort|Hlen].
  { split; [|lia]. intros _. unfold parse_filename. rewrite Hstem. cbn [bind].
    destruct (Nat.ltb_spec (length (Str.split "_" stem)) 3); [eauto | lia]. }
  pose proof (parse_filename_cases path_stem filename stem Hstem Hlen) as H.
  cbv zeta in H. destruct H as [(Hok & H6 & E)|(Hbad & E)].
  - split; [intros H; contradiction|]. intros _ _. split; [done|].
    eexists. split; [exact E|]. split; [done|]. split.
    + intros k v. apply update_all_is_Some.
    + intros ND k v. by apply update_all_lookup.
  - split; [done | intros _ H; contradiction].
Qed.

Lemma parse_filename_token_witness :
  let stem :=
    "20200812-CardiomyocyteDifferentiation14-Cycle1_B03_T0001F036L01A01Z18C01" in
  exists output,
    parse_filename (fun _ => Ok stem) (stem +:+ ".png") = Ok output
    /\ output !! "A" = Some "01"
    /\ output !! "C" = Some "01"
    /\ output !! "Z" = Some "18".
Proof.
  intros stem.
  assert (Hlen : (3 <= length (Str.split "_" stem))%nat) by (vm_compute; lia).
  destruct (parse_filename_token (fun _ => Ok stem) (stem +:+ ".png") stem
              eq_refl) as [_ H].
  destruct (H Hlen) as (_ & output & E & _ & _ & L).
  { repeat split. vm_compute. repeat constructor. }
  exists output. split; [exact E|].
  assert (ND : NoDup (map fst (key_value_pairs (List.removelast
             (Py.re_split_digits (List.last (Str.split "_" stem) "")))))).
  { apply (bool_decide_unpack _). by vm_compute. }
  repeat split; apply (L ND); vm_compute; tauto.
Defined.

(** C8, as stated, fails: the token [T1T2L3A4Z5C6] satisfies all the
    conditions and [("T", "1")] is one of its six pairs, but the result
    binds [T] to ["2"]: the pair is not returned. *)
Lemma repeated_key_counterexample :
  token_ok (Py.re_split_digits "T1T2L3A4Z5C6")
  /\ key_value_pairs (List.removelast (Py.re_split_digits "T1T2L3A4Z5C6"))
     = [("T", "1"); ("T", "2"); ("L", "3"); ("A", "4"); ("Z", "5"); ("C", "6")]
  /\ exists output,
      parse_filename (fun _ => Ok "a_b_T1T2L3A4Z5C6") "a_b_T1T2L3A4Z5C6.png"
      = Ok output
      /\ output !! "T" = Some "2".
Proof.
  split; [|split; [reflexivity|]].
  - repeat split. vm_compute. repeat constructor.
  - eexists. split; [reflexivity|]. by vm_compute.
Qed.

Lemma update_all_lookup_In pairs (d : gmap string string) k :
  In k (map fst pairs) ->
  exists v, In (k, v) pairs /\ update_all pairs d !! k = Some v.
Proof.
  induction pairs as [|[k' v'] pairs IH] using rev_ind; [done|].
  rewrite update_all_snoc, map_app, in_app_iff. cbn [map fst]. intros H.
  destruct (decide (k' = k)) as [->|Hne].
  - exists v'. rewrite lookup_insert_eq, in_app_iff. split; [|done].
    right. by left.
  - rewrite lookup_insert_ne by done.
    destruct H as [H|[H|[]]]; [|congruence].
    destruct (IH H) as (v & Hin & Hv). exists v.
    rewrite in_app_iff. split; [by left | done].
Qed.

(** C9, as the code has it.  A name of fewer than three fields is refused.
    On a name of at least three fields whose metadata token parses, the
    parser returns a dictionary; in it [well] is the second-to-last field,
    [plate] the name that the rules give on the fields before the last two
    (with fields 1 and 2 of three fields made of six digits: field 0; with
    four fields of six digits: "RS", field 0, field 1; else the prefix
    itself) and [plate_prefix] these fields joined, each unless the token
    has a key of that name: a key of the token is bound to a value the
    token gives it. *)
Theorem parse_filename_well_and_plate (path_stem : string -> result string)
    (filename stem : string) :
  path_stem filename = Ok stem ->
  let fields := Str.split "_" stem in
  let prefix_fields := Py.all_but_last_two fields in
  let pieces := Py.re_split_digits (List.last fields "") in
  let pairs := key_value_pairs (List.removelast pieces) in
  ((length fields < 3)%nat ->
   parse_filename path_stem filename = Raise (ValueError (msg_not_valid stem)))
  /\ ((3 <= length fields)%nat ->
      token_ok pieces ->
      exists output,
        parse_filename path_stem filename = Ok output
        /\ (~ In "well" (map fst pairs) ->
            output !! "well" = Some (nth (length fields - 2) fields ""))
        /\ (~ In "plate" (map fst pairs) ->
            output !! "plate" = Some (plate_name_by_rules prefix_fields))
        /\ (~ In "plate_prefix" (map fst pairs) ->
            output !! "plate_prefix" = Some (Str.join "_" prefix_fields))
        /\ (forall k, In k (map fst pairs) ->
              exists v, In (k, v) pairs /\ output !! k = Some v)).
Proof.
  intros Hstem. cbv zeta. split.
  - intros Hlen. unfold parse_filename. rewrite Hstem. cbn [bind].
    destruct (Nat.ltb_spec (length (Str.split "_" stem)) 3); [done | lia].
  - intros Hlen Htoken.
    assert (Hp : get_plate_name
                   (Str.join "_" (Py.all_but_last_two (Str.split "_" stem)))
                 = plate_name_by_rules
                     (Py.all_but_last_two (Str.split "_" stem))).
    { apply get_plate_name_by_rules; unfold Py.all_but_last_two.
      - intros E. apply (f_equal (@length string)) in E.
        rewrite length_firstn in E. simpl in E. lia.
      - apply Forall_take, split_pieces_no_sep. }
    assert (Hplate : plate_and_well (Str.split "_" stem) !! "plate"
                     = Some (plate_name_by_rules
                               (Py.all_but_last_two (Str.split "_" stem)))).
    { unfold plate_and_well. by rewrite Hp. }
    pose proof (parse_filename_cases path_stem filename stem Hstem Hlen)
      as H.
    cbv zeta in H. destruct H as [(_ & _ & E)|(Hbad & _)]; [|contradiction].
    eexists. split; [exact E|].
    split; [|split; [|split]].
    + intros Hfresh. by rewrite update_all_lookup_other.
    + intros Hfresh. by rewrite update_all_lookup_other.
    + intros Hfresh. by rewrite update_all_lookup_other.
    + intros k Hk. by apply update_all_lookup_In.
Qed.

Lemma parse_filename_well_and_plate_witness :
  let stem := "220304_172545_220304_175557_L06_T0277F004L277A04Z07C04" in
  exists output,
    parse_filename (fun _ => Ok stem) (stem +:+ ".tif") = Ok output
    /\ output !! "well" = Some "L06"
    /\ output !! "plate" = Some "RS220304172545"
    /\ output !! "plate_prefix" = Some "220304_172545_220304_175557".
Proof.
  intros stem.
  destruct (parse_filename_well_and_plate (fun _ => Ok stem)
              (stem +:+ ".tif") stem eq_refl) as [_ H].
  destruct H as (output & E & Hw & Hp & Hpp & _).
  { vm_compute. lia. }
  { repeat split. vm_compute. repeat constructor. }
  exists output. split; [exact E|].
  assert (Hfresh : forall k, In k ["well"; "plate"; "plate_prefix"] ->
            ~ In k (map fst (key_value_pairs (List.removelast
                (Py.re_split_digits (List.last (Str.split "_" stem) "")))))).
  { intros k Hk Hin. vm_compute in Hin. simpl in Hk.
    repeat (destruct Hk as [<-|Hk];
            [repeat (destruct Hin as [Hin|Hin]; [discriminate|]); done|]).
    done. }
  split; [|split].
  - apply Hw, Hfresh. simpl. tauto.
  - apply Hp, Hfresh. simpl. tauto.
  - apply Hpp, Hfresh. simpl. tauto.
Defined.

(** C9, as stated, fails: the name [a_b_well1F2L3A4Z5C6] has three fields,
    the second-to-last is ["b"], the token parses, and the returned [well]
    is ["1"], the value the token gives to its key [well]. *)
Lemma well_key_counterexample :
  let stem := "a_b_well1F2L3A4Z5C6" in
  let fields := Str.split "_" stem in
  length fields = 3%nat
  /\ nth (length fields - 2) fields "" = "b"
  /\ token_ok (Py.re_split_digits (List.last fields ""))
  /\ exists output,
      parse_filename (fun _ => Ok stem) (stem +:+ ".png") = Ok output
      /\ output !! "well" = Some "1".
Proof.
  split; [reflexivity|]. split; [reflexivity|]. split.
  - repeat split. vm_compute. repeat constructor.
  - eexists. split; [reflexivity|]. by vm_compute.
Qed.

(** ** Registration of ROI tables *)

Lemma nth_error_lookup {A} (l : list A) (i : nat) : nth_error l i = l !! i.
Proof. revert i. induction l; intros [|i]; simpl; auto. Qed.

Lemma list_index_Ok {A} (l : list A) (i : nat) (x : A) :
  Py.list_index l i = Ok x <-> l !! i = Some x.
Proof.
  unfold Py.list_index. rewrite nth_error_lookup.
  destruct (l !! i); split; intros H; congruence.
Qed.

Lemma bind_Ok {A B} (r : result A) (k : A -> result B) (b : B) :
  bind r k = Ok b <-> exists a, r = Ok a /\ k a = Ok b.
Proof.
  destruct r; simpl; split.
  - eauto.
  - by intros (? & [= ->] & ?).
  - discriminate.
  - by intros (? & ? & ?).
Qed.

Lemma get_loc_lookup (idx : list string) (l : string) (i : nat) :
  get_loc idx l = Ok i -> idx !! i = Some l.
Proof.
  revert i. induction idx as [|x idx IH]; intros i; simpl; [discriminate|].
  destruct (String.eqb_spec x l) as [->|Hne].
  - destruct (existsb _ idx); [discriminate|]. by intros [= <-].
  - intros H. apply bind_Ok in H as (j & Hj & [= <-]). by apply IH.
Qed.

Lemma is_unique_NoDup (idx : list string) : is_unique idx = true -> NoDup idx.
Proof.
  induction idx as [|x idx IH]; simpl; [constructor|].
  intros [Hx Hu]%andb_true_iff. constructor; [|by apply IH].
  rewrite list_elem_of_In. intros Hin.
  apply negb_true_iff, not_true_iff_false in Hx. apply Hx.
  apply existsb_exists. exists x. split; [done | apply String.eqb_refl].
Qed.

Lemma position_lookup (idx : list string) (l : string) (i : nat) :
  position idx l = Some i -> idx !! i = Some l.
Proof.
  revert i. induction idx as [|x idx IH]; intros i; simpl; [discriminate|].
  destruct (String.eqb_spec x l) as [->|Hne]; [by intros [= <-]|].
  destruct (position idx l) as [j|]; [|discriminate].
  intros [= <-]. by apply IH.
Qed.

Lemma get_indexer_Ok (idx : list string) (l : string) (i : nat) :
  get_indexer idx l = Ok i -> NoDup idx /\ idx !! i = Some l.
Proof.
  unfold get_indexer. destruct (is_unique idx) eqn:Hu; [|discriminate].
  destruct (position idx l) as [j|] eqn:Hp; [|discriminate].
  intros [= <-]. split; [by apply is_unique_NoDup | by apply position_lookup].
Qed.

Lemma get_indexer_lookup (idx : list string) (l : string) (i : nat) :
  get_indexer idx l = Ok i -> idx !! i = Some l.
Proof. intros H. by apply get_indexer_Ok in H as [_ H]. Qed.

Lemma get_loc_of_unique (idx : list string) (l : string) (i : nat) :
  NoDup idx -> idx !! i = Some l -> get_loc idx l = Ok i.
Proof.
  intros ND. revert i. induction ND as [|x idx Hx ND IH]; intros i Hi;
    [done|]. simpl.
  destruct i as [|i]; simpl in Hi.
  - injection Hi as ->. rewrite String.eqb_refl.
    destruct (existsb (String.eqb l) idx) eqn:E; [|done].
    apply existsb_exists in E as (y & Hy & ->%String.eqb_eq).
    by apply list_elem_of_In in Hy.
  - destruct (String.eqb_spec x l) as [->|Hne].
    + exfalso. apply Hx, list_elem_of_lookup. eauto.
    + by rewrite (IH i Hi).
Qed.

Lemma get_indexer_get_loc (idx : list string) (l : string) (i : nat) :
  get_indexer idx l = Ok i -> get_loc idx l = Ok i.
Proof. intros [ND Hi]%get_indexer_Ok. by apply get_loc_of_unique. Qed.

Section CellProperties.

Context {num : Type}.
Implicit Types (t : @AnnData num) (v x : option num).

Lemma cell_Ok t roi col x :
  cell t roi col = Ok x <->
  exists i j row,
    get_indexer (obs_names t) roi = Ok i
    /\ get_indexer (var_names t) col = Ok j
    /\ X t !! i = Some row /\ row !! j = Some x.
Proof.
  unfold cell. split.
  - intros H. apply bind_Ok in H as (i & Hi & H).
    apply bind_Ok in H as (j & Hj & H). apply bind_Ok in H as (row & Hr & H).
    apply list_index_Ok in Hr, H. eauto 10.
  - intros (i & j & row & -> & -> & Hr & H). cbn [bind].
    apply list_index_Ok in Hr, H. by rewrite Hr.
Qed.

Lemma set_cell_Ok t roi col x v :
  cell t roi col = Ok x -> exists t', set_cell t roi col v = Ok t'.
Proof.
  intros H. apply cell_Ok in H as (i & j & row & Hi & Hj & Hr & H).
  apply list_index_Ok in Hr, H. unfold set_cell, float in *.
  rewrite Hi, Hj. cbn [bind]. rewrite Hr. cbn [bind]. rewrite H. cbn [bind].
  eauto.
Qed.

Lemma set_cell_inv t roi col v t' :
  set_cell t roi col v = Ok t' ->
  exists i j row,
    get_indexer (obs_names t) roi = Ok i
    /\ get_indexer (var_names t) col = Ok j
    /\ X t !! i = Some row /\ (j < length row)%nat
    /\ t' = mk_AnnData (obs_names t) (var_names t)
              (<[i := <[j := v]> row]> (X t)).
Proof.
  unfold set_cell. intros H.
  apply bind_Ok in H as (i & Hi & H). apply bind_Ok in H as (j & Hj & H).
  apply bind_Ok in H as (row & Hr & H). apply bind_Ok in H as (y & Hy & H).
  apply list_index_Ok in Hr, Hy. injection H as <-.
  exists i, j, row. repeat split; try done.
  by eapply lookup_lt_Some.
Qed.

Lemma cell_set_cell_same t roi col v t' :
  set_cell t roi col v = Ok t' -> cell t' roi col = Ok v.
Proof.
  intros H. apply set_cell_inv in H as (i & j & row & Hi & Hj & Hr & Hlt & ->).
  apply cell_Ok. exists i, j, (<[j := v]> row). simpl. repeat split; try done.
  - apply list_lookup_insert_eq. by eapply lookup_lt_Some.
  - by apply list_lookup_insert_eq.
Qed.

Lemma cell_set_cell_other t roi col v t' roi' col' :
  set_cell t roi col v = Ok t' ->
  roi' <> roi \/ col' <> col ->
  cell t' roi' col' = cell t roi' col'.
Proof.
  intros H Hne.
  apply set_cell_inv in H as (i & j & row & Hi & Hj & Hr & Hlt & ->).
  unfold cell. simpl.
  destruct (get_indexer (obs_names t) roi') as [i'|] eqn:Hi'; [|done].
  destruct (get_indexer (var_names t) col') as [j'|] eqn:Hj'; [|done].
  simpl. unfold Py.list_index. rewrite !nth_error_lookup.
  apply get_indexer_lookup in Hi, Hj, Hi', Hj'.
  destruct (decide (i = i')) as [<-|Hii].
  - rewrite list_lookup_insert_eq by (by eapply lookup_lt_Some).
    rewrite Hr. simpl. rewrite !nth_error_lookup.
    rewrite list_lookup_insert_ne; [done|].
    intros <-. destruct Hne; congruence.
  - by rewrite list_lookup_insert_ne.
Qed.

End CellProperties.

Section RegisterProperties.

Context {num : Type}.
Variables add sub : num -> num -> num.
Implicit Types (t : @AnnData num) (max_df min_df : @DataFrame num).

Lemma shift_position_spec max_df roi col tcol t p mx own :
  cell t roi col = Ok p -> loc max_df roi tcol = Ok mx ->
  cell t roi tcol = Ok own ->
  exists t',
    shift_position add sub max_df roi col tcol t = Ok t'
    /\ cell t' roi col = Ok (fsub sub (fadd add p mx) own)
    /\ forall roi' col',
        roi' <> roi \/ col' <> col -> cell t' roi' col' = cell t roi' col'.
Proof.
  intros Hp Hmx Hown. unfold shift_position.
  rewrite Hp, Hmx, Hown. cbn [bind].
  destruct (set_cell_Ok t roi col p (fsub sub (fadd add p mx) own) Hp)
    as [t' Ht'].
  exists t'. split; [done|]. split.
  - by eapply cell_set_cell_same.
  - intros roi' col'. by eapply cell_set_cell_other.
Qed.

Lemma shrink_extent_spec max_df min_df roi col tcol t l mx mn :
  cell t roi col = Ok l -> loc max_df roi tcol = Ok mx ->
  loc min_df roi tcol = Ok mn ->
  exists t',
    shrink_extent add sub max_df min_df roi col tcol t = Ok t'
    /\ cell t' roi col = Ok (fadd add (fsub sub l mx) mn)
    /\ forall roi' col',
        roi' <> roi \/ col' <> col -> cell t' roi' col' = cell t roi' col'.
Proof.
  intros Hl Hmx Hmn. unfold shrink_extent.
  rewrite Hl, Hmx, Hmn. cbn [bind].
  destruct (set_cell_Ok t roi col l (fadd add (fsub sub l mx) mn) Hl)
    as [t' Ht'].
  exists t'. split; [done|]. split.
  - by eapply cell_set_cell_same.
  - intros roi' col'. by eapply cell_set_cell_other.
Qed.

(** Rewrite a cell of a later table into the cell of an earlier one, when
    the labels differ as literals. *)
Ltac earlier H := rewrite H by (right; discriminate).

Lemma register_roi_spec max_df min_df roi t (p l own mx mn : axis -> option num) :
  (forall a, cell t roi (position_column a) = Ok (p a)) ->
  (forall a, cell t roi (extent_column a) = Ok (l a)) ->
  (forall a, cell t roi (translation_column a) = Ok (own a)) ->
  (forall a, loc max_df roi (translation_column a) = Ok (mx a)) ->
  (forall a, loc min_df roi (translation_column a) = Ok (mn a)) ->
  exists t',
    register_roi add sub max_df min_df roi t = Ok t'
    /\ (forall a, cell t' roi (position_column a)
                  = Ok (fsub sub (fadd add (p a) (mx a)) (own a)))
    /\ (forall a, cell t' roi (extent_column a)
                  = Ok (fadd add (fsub sub (l a) (mx a)) (mn a)))
    /\ (forall roi' col',
           roi' <> roi
           \/ (forall a, col' <> position_column a /\ col' <> extent_column a) ->
           cell t' roi' col' = cell t roi' col').
Proof.
  intros Hp Hl Hown Hmx Hmn. unfold register_roi.
  destruct (shift_position_spec max_df roi "z_micrometer" "translation_z" t
              _ _ _ (Hp axis_z) (Hmx axis_z) (Hown axis_z))
    as (t1 & -> & N1 & O1). cbn [bind].
  destruct (shift_position_spec max_df roi "y_micrometer" "translation_y" t1
              (p axis_y) (mx axis_y) (own axis_y))
    as (t2 & -> & N2 & O2);
    [earlier O1; apply (Hp axis_y) | apply (Hmx axis_y)
     | earlier O1; apply (Hown axis_y) |]. cbn [bind].
  destruct (shift_position_spec max_df roi "x_micrometer" "translation_x" t2
              (p axis_x) (mx axis_x) (own axis_x))
    as (t3 & -> & N3 & O3);
    [earlier O2; earlier O1; apply (Hp axis_x) | apply (Hmx axis_x)
     | earlier O2; earlier O1; apply (Hown axis_x) |]. cbn [bind].
  destruct (shrink_extent_spec max_df min_df roi "len_z_micrometer"
              "translation_z" t3 (l axis_z) (mx axis_z) (mn axis_z))
    as (t4 & -> & N4 & O4);
    [earlier O3; earlier O2; earlier O1; apply (Hl axis_z)
    | apply (Hmx axis_z) | apply (Hmn axis_z) |]. cbn [bind].
  destruct (shrink_extent_spec max_df min_df roi "len_y_micrometer"
              "translation_y" t4 (l axis_y) (mx axis_y) (mn axis_y))
    as (t5 & -> & N5 & O5);
    [earlier O4; earlier O3; earlier O2; earlier O1; apply (Hl axis_y)
    | apply (Hmx axis_y) | apply (Hmn axis_y) |]. cbn [bind].
  destruct (shrink_extent_spec max_df min_df roi "len_x_micrometer"
              "translation_x" t5 (l axis_x) (mx axis_x) (mn axis_x))
    as (t6 & -> & N6 & O6);
    [earlier O5; earlier O4; earlier O3; earlier O2; earlier O1;
     apply (Hl axis_x)
    | apply (Hmx axis_x) | apply (Hmn axis_x) |].
  exists t6. split; [done|]. split; [|split].
  - intros [].
    + cbn [position_column]. earlier O6. earlier O5. earlier O4.
      earlier O3. earlier O2. exact N1.
    + cbn [position_column]. earlier O6. earlier O5. earlier O4.
      earlier O3. exact N2.
    + cbn [position_column]. earlier O6. earlier O5. earlier O4. exact N3.
  - intros [].
    + cbn [extent_column]. earlier O6. earlier O5. exact N4.
    + cbn [extent_column]. earlier O6. exact N5.
    + exact N6.
  - intros roi' col' Hne.
    assert (Hany : forall c, (exists a, c = position_column a)
                             \/ (exists a, c = extent_column a) ->
                             roi' <> roi \/ col' <> c).
    { intros c Hc. destruct Hne as [?|Hne]; [by left | right].
      destruct Hc as [[a ->]|[a ->]]; apply Hne. }
    rewrite O6 by (apply Hany; right; by exists axis_x).
    rewrite O5 by (apply Hany; right; by exists axis_y).
    rewrite O4 by (apply Hany; right; by exists axis_z).
    rewrite O3 by (apply Hany; left; by exists axis_x).
    rewrite O2 by (apply Hany; left; by exists axis_y).
    rewrite O1 by (apply Hany; left; by exists axis_z).
    reflexivity.
Qed.

(** The cells of one ROI that the registration reads. *)
Lemma apply_registration_spec max_df min_df (mx mn : string -> axis -> option num)
    (rois : list string) :
  forall t,
    NoDup rois ->
    (forall roi a, In roi rois ->
       loc max_df roi (translation_column a) = Ok (mx roi a)
       /\ loc min_df roi (translation_column a) = Ok (mn roi a)) ->
    (forall roi a, In roi rois ->
       exists p l own,
         cell t roi (position_column a) = Ok p
         /\ cell t roi (extent_column a) = Ok l
         /\ cell t roi (translation_column a) = Ok own) ->
    exists t',
      apply_registration_to_single_ROI_table add sub t max_df min_df rois
      = Ok t'
      /\ (forall roi a, In roi rois ->
            exists p l own,
              cell t roi (position_column a) = Ok p
              /\ cell t roi (extent_column a) = Ok l
              /\ cell t roi (translation_column a) = Ok own
              /\ cell t' roi (position_column a)
                 = Ok (fsub sub (fadd add p (mx roi a)) own)
              /\ cell t' roi (extent_column a)
                 = Ok (fadd add (fsub sub l (mx roi a)) (mn roi a)))
      /\ (forall roi' col',
            ~ In roi' rois
            \/ (forall a, col' <> position_column a
                          /\ col' <> extent_column a) ->
            cell t' roi' col' = cell t roi' col').
Proof.
  induction rois as [|roi rois IH]; intros t ND Hdf Hcells.
  - exists t. split; [done|]. split; [intros ? ? []|done].
  - apply NoDup_cons in ND as [Hfresh ND]. rewrite list_elem_of_In in Hfresh.
    assert (Hroi : In roi (roi :: rois)) by by left.
    assert (Hc : exists p l own : axis -> option num,
               (forall a, cell t roi (position_column a) = Ok (p a))
               /\ (forall a, cell t roi (extent_column a) = Ok (l a))
               /\ (forall a, cell t roi (translation_column a) = Ok (own a))).
    { destruct (Hcells roi axis_z Hroi) as (pz & lz & oz & ? & ? & ?).
      destruct (Hcells roi axis_y Hroi) as (py & ly & oy & ? & ? & ?).
      destruct (Hcells roi axis_x Hroi) as (px & lx & ox & ? & ? & ?).
      exists (fun a => match a with axis_z => pz | axis_y => py | axis_x => px end),
        (fun a => match a with axis_z => lz | axis_y => ly | axis_x => lx end),
        (fun a => match a with axis_z => oz | axis_y => oy | axis_x => ox end).
      repeat split; intros []; assumption. }
    destruct Hc as (p & l & own & Hp & Hl & Hown).
    destruct (register_roi_spec max_df min_df roi t p l own (mx roi) (mn roi)
                Hp Hl Hown (fun a => proj1 (Hdf roi a Hroi))
                (fun a => proj2 (Hdf roi a Hroi)))
      as (t1 & E1 & P1 & L1 & O1).
    destruct (IH t1 ND) as (t' & E' & C' & O').
    { intros r a Hr. apply Hdf. by right. }
    { intros r a Hr. rewrite !O1 by (left; intros ->; contradiction).
      apply Hcells. by right. }
    exists t'. cbn [apply_registration_to_single_ROI_table].
    rewrite E1. cbn [bind]. split; [done|]. split.
    + intros r a [<-|Hr].
      * exists (p a), (l a), (own a). repeat split; try done.
        -- rewrite O' by (by left). apply P1.
        -- rewrite O' by (by left). apply L1.
      * destruct (C' r a Hr) as (p' & l' & own' & A1 & A2 & A3 & A4 & A5).
        rewrite !O1 in A1, A2, A3 by (left; intros ->; contradiction).
        eauto 10.
    + intros roi' col' Hne. rewrite O', O1; [done | |].
      * destruct Hne as [Hne|Hne]; [left | by right].
        intros ->. apply Hne. by left.
      * destruct Hne as [Hne|Hne]; [left | by right].
        intros Hin. apply Hne. by right.
Qed.

End RegisterProperties.

Lemma map_result_Forall2 {A B} (f : A -> result B) (l : list A) (l' : list B) :
  Forall2 (fun x y => f x = Ok y) l l' -> map_result f l = Ok l'.
Proof.
  induction 1 as [|x y l l' Hxy _ IH]; simpl; [done|].
  by rewrite Hxy, IH.
Qed.

Lemma entry_Some {A} (m : list (list A)) i j x :
  entry m i j = Some x <-> exists row, m !! i = Some row /\ row !! j = Some x.
Proof.
  unfold entry. destruct (m !! i) as [row|]; split.
  - eauto.
  - by intros (? & [= <-] & ?).
  - discriminate.
  - by intros (? & ? & ?).
Qed.

Section MinMaxProperties.

Context {num : Type}.
Variable leb : num -> num -> bool.
Hypothesis leb_total : forall a b, leb a b = true \/ leb b a = true.
Hypothesis leb_trans :
  forall a b c, leb a b = true -> leb b c = true -> leb a c = true.

Lemma leb_refl a : leb a a = true.
Proof. by destruct (leb_total a a). Qed.

Lemma fold_max_from (a : num) (xs : list num) :
  exists m,
    fold_left (npy_ObjectMax leb) (map Some xs) (Some a) = Some m
    /\ leb a m = true
    /\ (forall x, In x xs -> leb x m = true)
    /\ (m = a \/ In m xs).
Proof.
  revert a. induction xs as [|x xs IH]; intros a; simpl.
  - exists a. split; [done|]. split; [apply leb_refl|]. split; [by intros|by left].
  - unfold npy_ObjectMax at 2. unfold fge, fle.
    destruct (leb x a) eqn:E.
    + destruct (IH a) as (m & Hm & Ham & Hxs & Hin). exists m.
      split; [done|]. split; [done|]. split.
      * intros y [<-|Hy]; [by eapply leb_trans | by apply Hxs].
      * destruct Hin; [by left | right; by right].
    + destruct (IH x) as (m & Hm & Hxm & Hxs & Hin). exists m.
      split; [done|]. split.
      * destruct (leb_total a x) as [Hax|Hxa]; [|congruence].
        by eapply leb_trans.
      * split.
        -- intros y [<-|Hy]; [done | by apply Hxs].
        -- right. destruct Hin as [->|Hin]; [by left | by right].
Qed.

Lemma fold_min_from (a : num) (xs : list num) :
  exists m,
    fold_left (npy_ObjectMin leb) (map Some xs) (Some a) = Some m
    /\ leb m a = true
    /\ (forall x, In x xs -> leb m x = true)
    /\ (m = a \/ In m xs).
Proof.
  revert a. induction xs as [|x xs IH]; intros a; simpl.
  - exists a. split; [done|]. split; [apply leb_refl|]. split; [by intros|by left].
  - unfold npy_ObjectMin at 2. unfold fle.
    destruct (leb a x) eqn:E.
    + destruct (IH a) as (m & Hm & Hma & Hxs & Hin). exists m.
      split; [done|]. split; [done|]. split.
      * intros y [<-|Hy]; [by eapply leb_trans | by apply Hxs].
      * destruct Hin; [by left | right; by right].
    + destruct (IH x) as (m & Hm & Hmx & Hxs & Hin). exists m.
      split; [done|]. split.
      * destruct (leb_total a x) as [Hax|Hxa]; [congruence|].
        by eapply leb_trans.
      * split.
        -- intros y [<-|Hy]; [done | by apply Hxs].
        -- right. destruct Hin as [->|Hin]; [by left | by right].
Qed.

(** Starting from NaN, the object loops leave the maximum and the minimum
    of a non-empty list of numbers. *)
Lemma fold_max_nan (xs : list num) :
  xs <> [] ->
  exists m, fold_left (npy_ObjectMax leb) (map Some xs) None = Some m
            /\ is_max leb m xs.
Proof.
  destruct xs as [|x xs]; [done|]. intros _. simpl.
  destruct (fold_max_from x xs) as (m & Hm & Hxm & Hxs & Hin).
  exists m. split; [exact Hm|]. split.
  - destruct Hin as [->|Hin]; [by left | by right].
  - intros y [<-|Hy]; [done | by apply Hxs].
Qed.

Lemma fold_min_nan (xs : list num) :
  xs <> [] ->
  exists m, fold_left (npy_ObjectMin leb) (map Some xs) None = Some m
            /\ is_min leb m xs.
Proof.
  destruct xs as [|x xs]; [done|]. intros _. simpl.
  destruct (fold_min_from x xs) as (m & Hm & Hmx & Hxs & Hin).
  exists m. split; [exact Hm|]. split.
  - destruct Hin as [->|Hin]; [by left | by right].
  - intros y [<-|Hy]; [done | by apply Hxs].
Qed.

End MinMaxProperties.

Section FrameProperties.

Context {num : Type}.
Implicit Types (f : option num -> option num -> option num)
  (a b r : list (list (option num))) (df : @DataFrame num).

Lemma zip_row_spec f (k : nat) (x y : list (option num)) :
  length x = k -> length y = k ->
  exists z,
    zip_row f x y = Ok z /\ length z = k
    /\ forall j u v, x !! j = Some u -> y !! j = Some v ->
                     z !! j = Some (f u v).
Proof.
  revert k y. induction x as [|u x IH]; intros k [|v y] Hx Hy;
    simpl in *; try (subst; discriminate).
  - exists []. repeat split; [done|]. intros [|j] ? ? H; discriminate H.
  - destruct k as [|k]; [discriminate|].
    destruct (IH k y) as (z & -> & Hz & Hj); [lia | lia|].
    exists (f u v :: z). cbn [bind]. repeat split; [simpl; lia|].
    intros [|j] u' v'; simpl; [by intros [= <-] [= <-] | apply Hj].
Qed.

Lemma ufunc_spec f (n k : nat) a b :
  shape n k a -> shape n k b ->
  exists r,
    ufunc f a b = Ok r /\ shape n k r
    /\ forall i j u v, entry a i j = Some u -> entry b i j = Some v ->
                       entry r i j = Some (f u v).
Proof.
  revert n b. induction a as [|x a IH]; intros n [|y b] [Ha Fa] [Hb Fb];
    simpl in *; try (subst; discriminate).
  - exists []. repeat split; [done | constructor|].
    intros [|i] ? ? ? H; discriminate H.
  - destruct n as [|n]; [discriminate|].
    apply Forall_cons in Fa as [Hx Fa]. apply Forall_cons in Fb as [Hy Fb].
    destruct (zip_row_spec f k x y Hx Hy) as (z & -> & Hz & Hj).
    destruct (IH n b) as (r & -> & [Hr Fr] & Hij);
      [split; [lia | done] | split; [lia | done] |].
    exists (z :: r). cbn [bind]. repeat split; [simpl; lia | by constructor|].
    intros [|i] j u v; [apply Hj | apply Hij].
Qed.

Lemma empty_frame_shape (idx cols : list string) :
  shape (length idx) (length cols) (values (@empty_frame num idx cols)).
Proof.
  unfold empty_frame, shape. simpl. split; [by rewrite length_map|].
  apply Forall_forall. intros row Hrow.
  apply list_elem_of_In, in_map_iff in Hrow as (? & <- & _).
  by rewrite length_map.
Qed.

Lemma empty_frame_entry (idx cols : list string) (i j : nat) :
  (i < length idx)%nat -> (j < length cols)%nat ->
  entry (values (@empty_frame num idx cols)) i j = Some None.
Proof.
  intros Hi Hj. unfold empty_frame, entry. simpl.
  destruct (lookup_lt_is_Some_2 idx i Hi) as [x Hx].
  destruct (lookup_lt_is_Some_2 cols j Hj) as [c Hc].
  rewrite list_lookup_fmap, Hx. simpl. by rewrite list_lookup_fmap, Hc.
Qed.

Variable leb : num -> num -> bool.

Lemma min_max_loop_spec (n k : nat) (dfs : list (@DataFrame num)) :
  forall max_df min_df,
    shape n k (values max_df) -> shape n k (values min_df) ->
    Forall (fun df => shape n k (values df)) dfs ->
    exists mx mn,
      min_max_loop leb dfs max_df min_df = Ok (mx, mn)
      /\ index mx = index max_df /\ columns mx = columns max_df
      /\ index mn = index min_df /\ columns mn = columns min_df
      /\ forall i j x0 y0 es,
          entry (values max_df) i j = Some x0 ->
          entry (values min_df) i j = Some y0 ->
          Forall2 (fun df e => entry (values df) i j = Some e) dfs es ->
          entry (values mx) i j = Some (fold_left (npy_ObjectMax leb) es x0)
          /\ entry (values mn) i j
             = Some (fold_left (npy_ObjectMin leb) es y0).
Proof.
  induction dfs as [|df dfs IH]; intros max_df min_df Smax Smin F.
  - exists max_df, min_df. repeat split; try done;
      inversion H1; subst; simpl; assumption.
  - apply Forall_cons in F as [Sdf F]. cbn [min_max_loop].
    destruct (ufunc_spec (npy_ObjectMax leb) n k _ _ Smax Sdf)
      as (vmx & -> & Svmx & Emx).
    destruct (ufunc_spec (npy_ObjectMin leb) n k _ _ Smin Sdf)
      as (vmn & -> & Svmn & Emn).
    cbn [bind].
    destruct (IH (mk_DataFrame (index max_df) (columns max_df) vmx)
                (mk_DataFrame (index min_df) (columns min_df) vmn)
                Svmx Svmn F)
      as (mx & mn & E & I1 & C1 & I2 & C2 & Hfold).
    exists mx, mn. repeat split; try done.
    + inversion H1 as [|? e ? es' He Hes]; subst. simpl.
      eapply Hfold; simpl; eauto.
    + inversion H1 as [|? e ? es' He Hes]; subst. simpl.
      eapply Hfold; simpl; eauto.
Qed.

End FrameProperties.

Section TranslationFrames.

Context {num : Type}.
Implicit Types (t : @AnnData num).

Lemma roi_table_ok_NoDup rois t : roi_table_ok rois t -> NoDup rois.
Proof.
  intros (Hobs & _ & _ & Hcells). destruct rois as [|roi rois]; [constructor|].
  destruct (Hcells roi axis_z (or_introl eq_refl)) as (p & _ & _ & Hp & _).
  apply cell_Ok in Hp as (i & _ & _ & Hi & _).
  rewrite Hobs in Hi. by apply get_indexer_Ok in Hi as [ND _].
Qed.

Lemma roi_table_ok_get_loc rois t roi :
  roi_table_ok rois t -> In roi rois -> exists i, get_loc rois roi = Ok i.
Proof.
  intros (Hobs & _ & _ & Hcells) Hroi.
  destruct (Hcells roi axis_z Hroi) as (p & _ & _ & Hp & _).
  apply cell_Ok in Hp as (i & _ & _ & Hi & _). rewrite <- Hobs.
  exists i. by apply get_indexer_get_loc.
Qed.

Lemma translation_cell_row rois t i roi a j :
  roi_table_ok rois t -> rois !! i = Some roi ->
  get_loc (var_names t) (translation_column a) = Ok j ->
  exists row own,
    X t !! i = Some row /\ row !! j = Some (Some own)
    /\ cell t roi (translation_column a) = Ok (Some own).
Proof.
  intros Hok Hi Hj. pose proof (roi_table_ok_NoDup _ _ Hok) as ND.
  destruct Hok as (Hobs & _ & _ & Hcells).
  assert (Hroi : In roi rois).
  { apply list_elem_of_In, list_elem_of_lookup. eauto. }
  destruct (Hcells roi a Hroi) as (_ & _ & own & _ & _ & Hown).
  pose proof Hown as Hc.
  apply cell_Ok in Hc as (i' & j' & row & Hi' & Hj' & Hrow & Hx).
  apply get_indexer_get_loc in Hj'.
  rewrite Hj in Hj'. injection Hj' as <-. rewrite Hobs in Hi'.
  apply get_indexer_lookup in Hi'.
  assert (i' = i) as -> by (by eapply NoDup_lookup).
  eauto 10.
Qed.

(** The frame [to_df(t).loc[:, translation_columns]] of a ROI table holds,
    at the row of each ROI, its three translations. *)
Lemma translation_frame rois t :
  roi_table_ok rois t ->
  exists df,
    loc_columns (to_df t) translation_columns = Ok df
    /\ index df = rois /\ columns df = translation_columns
    /\ shape (length rois) 3 (values df)
    /\ forall roi a i,
        get_loc rois roi = Ok i ->
        exists own,
          cell t roi (translation_column a) = Ok (Some own)
          /\ entry (values df) i (axis_index a) = Some (Some own).
Proof.
  intros Hok. pose proof Hok as (Hobs & Hlen & Hcols & Hcells).
  assert (Hj : forall a, exists j,
               get_loc (var_names t) (translation_column a) = Ok j).
  { intros a. specialize (Hcols a).
    destruct (get_loc (var_names t) (translation_column a));
      [eauto | discriminate]. }
  destruct (Hj axis_z) as [jz Hz], (Hj axis_y) as [jy Hy],
    (Hj axis_x) as [jx Hx].
  cbn [translation_column] in Hz, Hy, Hx.
  assert (Hrow : forall i roi, rois !! i = Some roi ->
            exists row oz oy ox,
              X t !! i = Some row
              /\ map_result (Py.list_index row) [jz; jy; jx]
                 = Ok [Some oz; Some oy; Some ox]
              /\ cell t roi "translation_z" = Ok (Some oz)
              /\ cell t roi "translation_y" = Ok (Some oy)
              /\ cell t roi "translation_x" = Ok (Some ox)).
  { intros i roi Hi.
    destruct (translation_cell_row rois t i roi axis_z jz Hok Hi Hz)
      as (row & oz & Hr & Hoz & Cz).
    destruct (translation_cell_row rois t i roi axis_y jy Hok Hi Hy)
      as (row' & oy & Hr' & Hoy & Cy).
    destruct (translation_cell_row rois t i roi axis_x jx Hok Hi Hx)
      as (row'' & ox & Hr'' & Hox & Cx).
    rewrite Hr in Hr', Hr''. injection Hr' as <-. injection Hr'' as <-.
    exists row, oz, oy, ox. repeat split; try done.
    apply list_index_Ok in Hoz, Hoy, Hox. cbn [map_result].
    unfold float in *. by rewrite Hoz, Hoy, Hox. }
  destruct (map_result_ok
              (fun row => map_result (Py.list_index row) [jz; jy; jx]) (X t))
    as (rows & Erows & Frows).
  { apply Forall_forall. intros row Hin.
    apply list_elem_of_lookup in Hin as [i Hi].
    destruct (lookup_lt_is_Some_2 rois i) as [roi Hroi].
    { rewrite <- Hlen. by eapply lookup_lt_Some. }
    destruct (Hrow i roi Hroi) as (row' & oz & oy & ox & Hr & E & _).
    unfold float in *. rewrite Hi in Hr. injection Hr as <-. by rewrite E. }
  exists (mk_DataFrame rois translation_columns rows).
  assert (Hentries : forall i roi, rois !! i = Some roi ->
            exists oz oy ox,
              rows !! i = Some [Some oz; Some oy; Some ox]
              /\ cell t roi "translation_z" = Ok (Some oz)
              /\ cell t roi "translation_y" = Ok (Some oy)
              /\ cell t roi "translation_x" = Ok (Some ox)).
  { intros i roi Hroi.
    destruct (Hrow i roi Hroi) as (row & oz & oy & ox & Hr & E & Cz & Cy & Cx).
    destruct (Forall2_lookup_l _ _ _ _ _ Frows Hr) as (out & Hout & E').
    cbv beta in E'. unfold float in *. rewrite E in E'.
    injection E' as <-. eauto 10. }
  split.
  { unfold loc_columns, to_df. cbn [columns values index translation_columns
      map_result]. rewrite Hz, Hy, Hx. cbn [bind].
    unfold float in *. rewrite Erows. cbn [bind]. by rewrite Hobs. }
  split; [done|]. split; [done|]. split.
  { split; cbn [values].
    - rewrite <- Hlen. symmetry. by eapply Forall2_length.
    - apply Forall_forall. intros out Hin.
      apply list_elem_of_lookup in Hin as [i Hi].
      destruct (lookup_lt_is_Some_2 rois i) as [roi Hroi].
      { rewrite <- Hlen, (Forall2_length _ _ _ Frows). by eapply lookup_lt_Some. }
      destruct (Hentries i roi Hroi) as (oz & oy & ox & Hr & _).
      unfold float in *. rewrite Hi in Hr. by injection Hr as ->. }
  intros roi a i Hi. apply get_loc_lookup in Hi.
  destruct (Hentries i roi Hi) as (oz & oy & ox & Hr & Cz & Cy & Cx).
  unfold entry, float in *. cbn [values]. rewrite Hr.
  destruct a; cbn [translation_column axis_index]; eauto.
Qed.

End TranslationFrames.

Section Reconciler.

Context {num : Type}.
Variables add sub : num -> num -> num.
Variable leb : num -> num -> bool.
Implicit Types (t : @AnnData num) (df : @DataFrame num).

Lemma loc_of_entry df roi col i j v :
  get_loc (index df) roi = Ok i -> get_loc (columns df) col = Ok j ->
  entry (values df) i j = Some v -> loc df roi col = Ok v.
Proof.
  intros Hi Hj He. apply entry_Some in He as (row & Hr & Hv).
  apply list_index_Ok in Hr, Hv. unfold loc, float in *.
  rewrite Hi, Hj. cbn [bind]. by rewrite Hr.
Qed.

Lemma frames_of_tables rois (tables : list (@AnnData num)) :
  Forall (roi_table_ok rois) tables ->
  exists dfs, Forall2 (frame_of rois) tables dfs.
Proof.
  induction 1 as [|t tables Ht _ [dfs IH]].
  - exists []. constructor.
  - destruct (translation_frame rois t Ht) as (df & Hdf).
    exists (df :: dfs). by constructor.
Qed.

Lemma translations_cons roi a t (tables : list (@AnnData num)) :
  translations roi a (t :: tables)
  = match translation_of roi a t with
    | Some x => x :: translations roi a tables
    | None => translations roi a tables
    end.
Proof. reflexivity. Qed.

Lemma entries_of_frames rois (tables : list (@AnnData num)) dfs roi a i :
  Forall2 (frame_of rois) tables dfs ->
  get_loc rois roi = Ok i ->
  Forall2 (fun df e => entry (values df) i (axis_index a) = Some e) dfs
    (map Some (translations roi a tables))
  /\ length (translations roi a tables) = length tables.
Proof.
  intros F Hi. induction F as [|t df tables dfs Hf _ [IH1 IH2]].
  - split; [constructor | done].
  - destruct Hf as (_ & _ & _ & _ & He).
    destruct (He roi a i Hi) as (own & Hc & Hentry).
    rewrite translations_cons. unfold translation_of. rewrite Hc.
    cbn [map length]. split; [by constructor | by rewrite IH2].
Qed.

Lemma translation_in_translations roi a t (tables : list (@AnnData num)) own :
  In t tables -> cell t roi (translation_column a) = Ok (Some own) ->
  In own (translations roi a tables).
Proof.
  intros Hin Hc. unfold translations.
  apply list_elem_of_In, list_elem_of_omap. exists t.
  split; [by apply list_elem_of_In|]. unfold translation_of. by rewrite Hc.
Qed.

Hypothesis leb_total : forall a b, leb a b = true \/ leb b a = true.
Hypothesis leb_trans :
  forall a b c, leb a b = true -> leb b c = true -> leb a c = true.

(** C1.  For ROI tables over the same ROIs that carry the translation
    columns (the numbers being totally ordered by [<=]), the frames of
    maxima and minima are computed and every table is registered; in the
    result, for each ROI and each axis, the position is
    [old_position + max_shift - own_shift] and the extent is
    [old_extent - max_shift + min_shift], where [max_shift] and
    [min_shift] are the maximum and the minimum of the translations of
    that ROI along that axis across all the tables, the table's own
    among them. *)
Theorem registration_formula (rois : list string)
    (tables : list (@AnnData num)) :
  tables <> [] ->
  Forall (roi_table_ok rois) tables ->
  exists dfs max_df min_df,
    map_result (fun t => loc_columns (to_df t) translation_columns) tables
    = Ok dfs
    /\ calculate_min_max_across_dfs leb dfs = Ok (max_df, min_df)
    /\ forall t,
        In t tables ->
        exists t',
          apply_registration_to_single_ROI_table add sub t max_df min_df rois
          = Ok t'
          /\ forall roi a,
              In roi rois ->
              exists p l own max_shift min_shift,
                cell t roi (position_column a) = Ok p
                /\ cell t roi (extent_column a) = Ok l
                /\ cell t roi (translation_column a) = Ok (Some own)
                /\ In own (translations roi a tables)
                /\ is_max leb max_shift (translations roi a tables)
                /\ is_min leb min_shift (translations roi a tables)
                /\ cell t' roi (position_column a)
                   = Ok (fsub sub (fadd add p (Some max_shift)) (Some own))
                /\ cell t' roi (extent_column a)
                   = Ok (fadd add (fsub sub l (Some max_shift))
                           (Some min_shift)).
Proof.
  intros Hne Hok.
  destruct (frames_of_tables rois tables Hok) as [dfs F].
  destruct tables as [|t0 tables0] eqn:Etables; [done|]. rewrite <- Etables in *.
  assert (Ht0 : roi_table_ok rois t0).
  { rewrite Etables in Hok. by inversion Hok. }
  pose proof (roi_table_ok_NoDup _ _ Ht0) as ND.
  (* the frames *)
  assert (Edfs : map_result
                   (fun t => loc_columns (to_df t) translation_columns) tables
                 = Ok dfs).
  { apply map_result_Forall2. eapply Forall2_impl; [exact F|].
    by intros t df (? & _). }
  assert (Sdfs : Forall (fun df => shape (length rois) 3 (values df)) dfs).
  { clear -F. induction F as [|? ? ? ? (_ & _ & _ & ? & _)]; by constructor. }
  destruct dfs as [|df0 dfs0] eqn:Ed; [rewrite Etables in F; inversion F|].
  rewrite <- Ed in *.
  assert (Hdf0 : index df0 = rois /\ columns df0 = translation_columns).
  { rewrite Etables, Ed in F. inversion F as [|? ? ? ? (_ & ? & ? & _)]. done. }
  destruct Hdf0 as [Hidx Hcol].
  (* the loop over the frames *)
  destruct (min_max_loop_spec leb (length rois) 3 dfs
              (empty_frame rois translation_columns)
              (empty_frame rois translation_columns))
    as (max_df & min_df & Eloop & Imx & Cmx & Imn & Cmn & Hfold);
    [apply empty_frame_shape | apply empty_frame_shape | exact Sdfs |].
  cbn [index columns empty_frame] in Imx, Cmx, Imn, Cmn.
  assert (Ecalc : calculate_min_max_across_dfs leb dfs = Ok (max_df, min_df)).
  { unfold calculate_min_max_across_dfs. rewrite Ed at 1.
    cbn [Py.list_index nth_error bind]. by rewrite Hidx, Hcol. }
  (* the entries of the two frames *)
  assert (Hshift : forall roi a, In roi rois ->
            exists mx mn,
              is_max leb mx (translations roi a tables)
              /\ is_min leb mn (translations roi a tables)
              /\ loc max_df roi (translation_column a) = Ok (Some mx)
              /\ loc min_df roi (translation_column a) = Ok (Some mn)).
  { intros roi a Hroi.
    destruct (roi_table_ok_get_loc rois t0 roi Ht0 Hroi) as [i Hi].
    destruct (entries_of_frames rois tables dfs roi a i F Hi) as [Hes Hlen].
    assert (Hi' : (i < length rois)%nat).
    { apply get_loc_lookup in Hi. by eapply lookup_lt_Some. }
    assert (Hj : (axis_index a < length translation_columns)%nat).
    { destruct a; simpl; lia. }
    destruct (Hfold i (axis_index a) None None _
                (empty_frame_entry rois translation_columns i _ Hi' Hj)
                (empty_frame_entry rois translation_columns i _ Hi' Hj)
                Hes) as [Emx Emn].
    assert (Hnonempty : translations roi a tables <> []).
    { intros E. rewrite E, Etables in Hlen. discriminate. }
    destruct (fold_max_nan leb leb_total leb_trans _ Hnonempty)
      as (mx & Hmx & Mmx).
    destruct (fold_min_nan leb leb_total leb_trans _ Hnonempty)
      as (mn & Hmn & Mmn).
    exists mx, mn. split; [done|]. split; [done|].
    assert (Hc : get_loc translation_columns (translation_column a)
                 = Ok (axis_index a)) by (by destruct a).
    split.
    - eapply loc_of_entry; [by rewrite Imx | by rewrite Cmx|].
      by rewrite Emx, Hmx.
    - eapply loc_of_entry; [by rewrite Imn | by rewrite Cmn|].
      by rewrite Emn, Hmn. }
  exists dfs, max_df, min_df. split; [done|]. split; [done|].
  intros t Ht.
  assert (Htok : roi_table_ok rois t).
  { rewrite List.Forall_forall in Hok. by apply Hok. }
  set (mxf := fun roi a =>
         match loc max_df roi (translation_column a) with
         | Ok v => v | Raise _ => None end).
  set (mnf := fun roi a =>
         match loc min_df roi (translation_column a) with
         | Ok v => v | Raise _ => None end).
  destruct (apply_registration_spec add sub max_df min_df mxf mnf rois t ND)
    as (t' & Et' & Hcells & _).
  { intros roi a Hroi.
    destruct (Hshift roi a Hroi) as (mx & mn & _ & _ & Lmx & Lmn).
    unfold mxf, mnf. by rewrite Lmx, Lmn. }
  { intros roi a Hroi. destruct Htok as (_ & _ & _ & Hc).
    destruct (Hc roi a Hroi) as (p & l & own & ? & ? & ?). eauto 10. }
  exists t'. split; [done|]. intros roi a Hroi.
  destruct (Hcells roi a Hroi) as (p & l & own & Cp & Cl & Cown & Np & Nl).
  destruct (Hshift roi a Hroi) as (mx & mn & Mmx & Mmn & Lmx & Lmn).
  destruct Htok as (_ & _ & _ & Hc).
  destruct (Hc roi a Hroi) as (_ & _ & own' & _ & _ & Cown').
  rewrite Cown' in Cown. injection Cown as <-.
  unfold mxf, mnf in Np, Nl. rewrite Lmx in Np, Nl. rewrite Lmn in Nl.
  exists p, l, own', mx, mn. repeat split; try done;
    first [apply Mmx | apply Mmn | by eapply translation_in_translations].
Qed.

End Reconciler.

(** ** The checks of the registration task *)

Section TaskProperties.

Context {num : Type}.
Variable zero : num.
Variables add sub : num -> num -> num.
Variable leb : num -> num -> bool.
Variable read_zarr : Z -> result (@AnnData num).
Variable are_ROI_table_columns_valid : @AnnData num -> result unit.
Variable reset_origin : @AnnData num -> result (@AnnData num).
Implicit Types (t : @AnnData num).

Lemma add_zero_translation_columns_raises t c :
  In c (var_names t) -> In c translation_columns ->
  add_zero_translation_columns zero t
  = Raise (ValueError msg_already_translation_columns).
Proof.
  intros Hvar Hcol. unfold add_zero_translation_columns.
  assert (E : existsb
                (isin ["translation_z"; "translation_y"; "translation_x"])
                (var_names t) = true).
  { apply existsb_exists. exists c. split; [done|].
    unfold isin. apply existsb_exists. exists c.
    split; [exact Hcol | apply String.eqb_refl]. }
  by rewrite E.
Qed.

Lemma collect_roi_tables_raises roi_table reference_cycle t c acqs :
  In reference_cycle acqs ->
  read_zarr reference_cycle = Ok t ->
  In c (var_names t) -> In c translation_columns ->
  forall roi_tables,
  exists e,
    collect_roi_tables zero read_zarr are_ROI_table_columns_valid
      roi_table reference_cycle acqs roi_tables = Raise e.
Proof.
  intros Hin Hread Hvar Hcol.
  induction acqs as [|acq acqs IH]; intros roi_tables; [destruct Hin|].
  cbn [collect_roi_tables].
  destruct (Z.eqb_spec acq reference_cycle) as [->|Hne].
  - rewrite Hread. cbn [bind].
    rewrite (add_zero_translation_columns_raises t c Hvar Hcol). simpl. eauto.
  - destruct Hin as [?|Hin]; [contradiction|].
    destruct (read_zarr acq) as [curr|e]; cbn [bind]; [|eauto].
    destruct (are_ROI_table_columns_valid curr) as [[]|e]; cbn [bind]; [|eauto].
    destruct (negb _); [eauto | by apply IH].
Qed.

(** C10.  A table that already has one of the translation columns makes
    [add_zero_translation_columns] raise a [ValueError] (no table is
    returned); hence, when the table read for the reference cycle has one,
    the task ends with an exception and has written nothing, and when the
    reference cycle is the first acquisition the exception is that
    [ValueError]. *)
Theorem reference_with_translation_columns_refused t c :
  In c (var_names t) ->
  In c translation_columns ->
  add_zero_translation_columns zero t
  = Raise (ValueError msg_already_translation_columns)
  /\ forall images acquisition_dict roi_table reference_cycle new_roi_table,
      get_acquisition_paths images = Ok acquisition_dict ->
      In reference_cycle (Dict.keys acquisition_dict) ->
      read_zarr reference_cycle = Ok t ->
      (exists e,
          apply_registration_to_ROI_tables zero add sub leb read_zarr
            are_ROI_table_columns_valid reset_origin
            images roi_table reference_cycle new_roi_table
          = mk_outcome [] (Some e))
      /\ (forall rest,
             Dict.keys acquisition_dict = reference_cycle :: rest ->
             apply_registration_to_ROI_tables zero add sub leb read_zarr
               are_ROI_table_columns_valid reset_origin
               images roi_table reference_cycle new_roi_table
             = mk_outcome []
                 (Some (ValueError msg_already_translation_columns))).
Proof.
  intros Hvar Hcol. split.
  { by eapply add_zero_translation_columns_raises. }
  intros images acquisition_dict roi_table reference_cycle new_roi_table
    Hacq Hin Hread.
  unfold apply_registration_to_ROI_tables. rewrite Hacq. cbn [bind]. split.
  - destruct (collect_roi_tables_raises roi_table reference_cycle t c
                (Dict.keys acquisition_dict) Hin Hread Hvar Hcol [])
      as [e ->].
    cbn [bind]. eauto.
  - intros rest ->. cbn [collect_roi_tables].
    rewrite Z.eqb_refl, Hread. cbn [bind].
    by rewrite (add_zero_translation_columns_raises t c Hvar Hcol).
Qed.

Lemma index_eq_spec (a b : list string) :
  match index_eq a b with
  | Ok l => length a = length b /\ (all l = true <-> a = b)
  | Raise e => length a <> length b /\ e = ValueError msg_lengths_must_match
  end.
Proof.
  unfold index_eq. destruct (Nat.eqb_spec (length a) (length b)) as [E|E];
    [|done].
  split; [done|]. unfold all. revert b E.
  induction a as [|x a IH]; intros [|y b] E; try discriminate; simpl.
  - done.
  - injection E as E. specialize (IH b E).
    destruct (String.eqb_spec x y) as [->|Hne]; simpl.
    + rewrite IH. split; [by intros -> | by intros [= ->]].
    + split; [discriminate | by intros [= ? ?]].
Qed.

Lemma same_ROIs_loop_Ok reference_cycle rois (items : list (Z * @AnnData num)) :
  same_ROIs_loop reference_cycle rois items = Ok tt
  <-> forall acq t, In (acq, t) items -> obs_names t = rois.
Proof.
  induction items as [|[acq t] items IH]; cbn [same_ROIs_loop].
  - split; [intros _ ? ? [] | done].
  - pose proof (index_eq_spec (obs_names t) rois) as H.
    destruct (index_eq (obs_names t) rois) as [l|e]; cbn [bind].
    + destruct H as [_ H]. destruct (all l); cbn [negb].
      * rewrite IH. split.
        -- intros Hall a t' [[= <- <-]|Hin]; [by apply H | by eapply Hall].
        -- intros Hall a t' Hin. apply (Hall a). by right.
      * split; [discriminate|]. intros Hall. exfalso.
        assert (obs_names t = rois) as E by (apply (Hall acq); by left).
        apply H in E. discriminate.
    + destruct H as [H _]. split; [discriminate|]. intros Hall. exfalso.
      apply H. f_equal. apply (Hall acq). by left.
Qed.

Lemma same_ROIs_loop_named reference_cycle rois
    (pre post : list (Z * @AnnData num)) acq t :
  (forall acq' t', In (acq', t') pre -> obs_names t' = rois) ->
  length (obs_names t) = length rois ->
  obs_names t <> rois ->
  same_ROIs_loop reference_cycle rois (pre ++ (acq, t) :: post)
  = Raise (ValueError
             (msg_not_same_ROIs acq reference_cycle (obs_names t) rois)).
Proof.
  intros Hpre Hlen Hne. induction pre as [|[acq' t'] pre IH];
    cbn [app same_ROIs_loop].
  - pose proof (index_eq_spec (obs_names t) rois) as H.
    destruct (index_eq (obs_names t) rois) as [l|e]; cbn [bind].
    + destruct H as [_ H]. destruct (all l); cbn [negb]; [|done].
      exfalso. by apply Hne, H.
    + by destruct H.
  - pose proof (index_eq_spec (obs_names t') rois) as H.
    assert (E : obs_names t' = rois) by (apply (Hpre acq'); by left).
    destruct (index_eq (obs_names t') rois) as [l|e]; cbn [bind].
    + destruct H as [_ H]. apply H in E. rewrite E. cbn [negb].
      apply IH. intros a t'' Hin. apply (Hpre a). by right.
    + destruct H as [H _]. exfalso. apply H. by rewrite E.
Qed.

(** C2, as the code has it.  With the reference cycle among the tables,
    the check passes exactly when the ROI names of every cycle are those
    of the reference cycle, in the same order; the first cycle whose names
    differ, when it has as many ROIs as the reference, is the one that the
    raised [ValueError] names; and whenever the check raises, some cycle's
    names differ from the reference's. *)
Theorem check_same_ROIs_spec (reference_cycle : Z)
    (roi_tables : list (Z * @AnnData num)) (ref : @AnnData num) :
  Dict.get roi_tables reference_cycle = Ok ref ->
  (check_same_ROIs reference_cycle roi_tables = Ok (obs_names ref)
   <-> forall acq t, In (acq, t) roi_tables -> obs_names t = obs_names ref)
  /\ (forall pre acq t post,
         roi_tables = pre ++ (acq, t) :: post ->
         (forall acq' t', In (acq', t') pre -> obs_names t' = obs_names ref) ->
         length (obs_names t) = length (obs_names ref) ->
         obs_names t <> obs_names ref ->
         check_same_ROIs reference_cycle roi_tables
         = Raise (ValueError
                    (msg_not_same_ROIs acq reference_cycle (obs_names t)
                       (obs_names ref))))
  /\ (forall e,
         check_same_ROIs reference_cycle roi_tables = Raise e ->
         exists acq t, In (acq, t) roi_tables /\ obs_names t <> obs_names ref).
Proof.
  intros Href. unfold check_same_ROIs. rewrite Href. cbn [bind].
  split; [|split].
  - rewrite <- (same_ROIs_loop_Ok reference_cycle).
    destruct (same_ROIs_loop reference_cycle (obs_names ref) roi_tables)
      as [[]|e]; cbn [bind]; split; intros H;
      first [reflexivity | discriminate H].
  - intros pre acq t post -> Hpre Hlen Hne.
    by rewrite (same_ROIs_loop_named _ _ pre post acq t Hpre Hlen Hne).
  - intros e He.
    destruct (same_ROIs_loop reference_cycle (obs_names ref) roi_tables)
      as [[]|e'] eqn:E; cbn [bind] in He; [discriminate|].
    destruct (decide (Forall (fun it => obs_names (snd it) = obs_names ref)
                        roi_tables)) as [F|F].
    + exfalso. assert (same_ROIs_loop reference_cycle (obs_names ref)
                         roi_tables = Ok tt) as E'.
      { apply same_ROIs_loop_Ok. intros acq t Hin.
        rewrite List.Forall_forall in F. apply (F (acq, t) Hin). }
      congruence.
    + apply not_Forall_Exists in F; [|apply _].
      apply List.Exists_exists in F as ([acq t] & Hin & Hne). eauto.
Qed.

End TaskProperties.

(** ** The split on digit runs *)

Lemma re_split_digits_pieces (s : string) :
  split_pieces (Py.starts_with_0_9 s || String.eqb s "") (Py.re_split_digits s)
  /\ (Py.starts_with_0_9 s = true ->
      exists d rest, Py.re_split_digits s = "" :: d :: rest).
Proof.
  induction s as [|c s [IH1 IH2]]; cbn [Py.re_split_digits Py.starts_with_0_9].
  - split; [by constructor | discriminate].
  - cbn [String.eqb orb]. rewrite orb_false_r.
    destruct (Py.re_0_9 c) eqn:Ec.
    + destruct (Py.starts_with_0_9 s) eqn:Es.
      * destruct (IH2 eq_refl) as (d & rest & E). rewrite E in *.
        split; [|eauto]. cbn [orb] in IH1.
        inversion IH1 as [|? ? ? ? Ht _ [Hd1 Hd2] Hrest]; subst.
        constructor; try done. split; [done|]. simpl. by rewrite Ec.
      * split; [|eauto]. constructor; try done.
        -- split; [done|]. simpl. by rewrite Ec.
        -- cbn [orb] in IH1. destruct (String.eqb_spec s "") as [->|Hne].
           ++ by constructor.
           ++ exact IH1.
    + split; [|discriminate].
      inversion IH1 as [? t Ht|? t d rest Ht _ Hd Hrest]; subst.
      * constructor. unfold plain_text. simpl. by rewrite Ec.
      * constructor; try done. unfold plain_text. simpl. by rewrite Ec.
Qed.

Lemma append_empty_l (s : string) : "" +:+ s = s.
Proof. reflexivity. Qed.

Lemma append_cons (c : ascii) (a b : string) :
  String c a +:+ b = String c (a +:+ b).
Proof. reflexivity. Qed.

Lemma concat_cons_text (c : ascii) (t : string) (rest : list string) :
  String.concat "" (String c t :: rest)
  = String c (String.concat "" (t :: rest)).
Proof. destruct rest; [done|]. cbn [String.concat]. by rewrite append_cons. Qed.

Lemma re_split_digits_concat (s : string) :
  String.concat "" (Py.re_split_digits s) = s.
Proof.
  induction s as [|c s IH]; cbn [Py.re_split_digits]; [done|].
  destruct (Py.re_0_9 c).
  - destruct (Py.starts_with_0_9 s) eqn:Es.
    + destruct (proj2 (re_split_digits_pieces s) Es) as (d & rest & E).
      rewrite E in *.
      change (String.concat "" ("" :: String c d :: rest))
        with ("" +:+ "" +:+ String.concat "" (String c d :: rest)).
      change (String.concat "" ("" :: d :: rest))
        with ("" +:+ "" +:+ String.concat "" (d :: rest)) in IH.
      rewrite !append_empty_l in *. by rewrite concat_cons_text, IH.
    + destruct (Py.re_split_digits s) as [|t rest] eqn:E;
        [simpl in IH; by subst|].
      change (String.concat "" ("" :: String c "" :: t :: rest))
        with ("" +:+ "" +:+ String c "" +:+ "" +:+ String.concat "" (t :: rest)).
      rewrite !append_empty_l, append_cons, !append_empty_l. by rewrite IH.
  - destruct (Py.re_split_digits s) as [|t rest]; [simpl in IH; by subst|].
    by rewrite concat_cons_text, IH.
Qed.

Lemma digit_run_isdigit (d : string) : digit_run d -> Py.isdigit d = true.
Proof.
  intros [Hne Hall]. unfold Py.isdigit.
  destruct (String.eqb_spec d ""); [done|]. simpl.
  clear Hne n. induction d as [|c d IH]; [done|]. simpl in *.
  apply andb_true_iff in Hall as [Hc Hd]. rewrite IH by done.
  unfold Py.char_isdigit, Py.re_0_9 in *. by rewrite Hc.
Qed.

(** The values of a split token are runs of [[0-9]]: the test
    [not value.isdigit()] of the source never fires. *)
Lemma split_pieces_values first (l : list string) :
  split_pieces first l ->
  Forall (fun kv => Py.isdigit (snd kv) = true)
    (key_value_pairs (List.removelast l)).
Proof.
  induction 1 as [|first t d rest Ht _ Hd Hrest IH]; [constructor|].
  destruct rest as [|t' rest]; [inversion Hrest|].
  change (List.removelast (t :: d :: t' :: rest))
    with (t :: d :: List.removelast (t' :: rest)).
  cbn [key_value_pairs]. constructor; [by apply digit_run_isdigit | exact IH].
Qed.

(** ** The properties on the example tables *)

Lemma Z_leb_total (a b : Z) : (a <=? b)%Z = true \/ (b <=? a)%Z = true.
Proof. destruct (Z.leb_spec a b); [by left | right; apply Z.leb_le; lia]. Qed.

Lemma Z_leb_trans (a b c : Z) :
  (a <=? b)%Z = true -> (b <=? c)%Z = true -> (a <=? c)%Z = true.
Proof. rewrite !Z.leb_le. lia. Qed.

Lemma example_tables_ok :
  Forall (roi_table_ok ["FOV_1"; "FOV_2"]) [example_cycle0; example_cycle1].
Proof.
  repeat constructor; try (intros []; reflexivity);
    intros roi a [<-|[<-|[]]]; destruct a; eexists _, _, _;
    repeat split; reflexivity.
Qed.

Lemma registration_formula_witness :
  exists max_df min_df t',
    calculate_min_max_across_dfs Z.leb
      [mk_DataFrame ["FOV_1"; "FOV_2"] translation_columns
         [[Some 0; Some 0; Some 0]; [Some 0; Some 0; Some 0]];
       mk_DataFrame ["FOV_1"; "FOV_2"] translation_columns
         [[Some 0; Some (-3); Some 5]; [Some 1; Some 2; Some (-4)]]]%Z
    = Ok (max_df, min_df)
    /\ apply_registration_to_single_ROI_table Z.add Z.sub example_cycle1
         max_df min_df ["FOV_1"; "FOV_2"] = Ok t'
    /\ cell t' "FOV_1" "y_micrometer" = Ok (Some (0 + 0 - -3)%Z)
    /\ cell t' "FOV_1" "len_y_micrometer" = Ok (Some (80 - 0 + -3)%Z).
Proof.
  destruct (registration_formula Z.add Z.sub Z.leb Z_leb_total Z_leb_trans
              ["FOV_1"; "FOV_2"] [example_cycle0; example_cycle1])
    as (dfs & max_df & min_df & Edfs & Ecalc & Happly);
    [discriminate | exact example_tables_ok |].
  vm_compute in Edfs. injection Edfs as <-.
  destruct (Happly example_cycle1) as (t' & Et' & Hcells);
    [right; by left|].
  destruct (Hcells "FOV_1" axis_y) as
    (p & l & own & mx & mn & Cp & Cl & Cown & _ & [Imx Mmx] & [Imn Mmn]
       & Np & Nl);
    [by left|].
  vm_compute in Cp, Cl, Cown.
  injection Cp as <-. injection Cl as <-. injection Cown as <-.
  assert (mx = 0%Z) as ->.
  { vm_compute in Imx. assert (H := Mmx 0%Z). vm_compute in H.
    destruct Imx as [<-|[<-|[]]]; [done|]. by specialize (H (or_introl eq_refl)). }
  assert (mn = (-3)%Z) as ->.
  { vm_compute in Imn. assert (H := Mmn (-3)%Z). vm_compute in H.
    destruct Imn as [<-|[<-|[]]]; [|done].
    by specialize (H (or_intror (or_introl eq_refl))). }
  exists max_df, min_df, t'. repeat split; assumption.
Defined.

Lemma check_same_ROIs_spec_witness :
  @check_same_ROIs Z 0 [(0, example_cycle0); (1, example_cycle1)]%Z
  = Ok ["FOV_1"; "FOV_2"].
Proof.
  apply (proj1 (@check_same_ROIs_spec Z 0%Z
                  [(0, example_cycle0); (1, example_cycle1)]%Z
                  example_cycle0 eq_refl)).
  intros acq t [[= <- <-]|[[= <- <-]|[]]]; reflexivity.
Defined.

(** C2, as stated, fails: the second cycle has the ROI names of the
    reference cycle in another order, the same set, and the check raises
    the [ValueError] that names it. *)
Lemma same_set_other_order_counterexample :
  (forall roi,
      In roi (obs_names example_cycle1_reordered)
      <-> In roi (obs_names example_cycle0))
  /\ @check_same_ROIs Z 0 [(0, example_cycle0); (1, example_cycle1_reordered)]%Z
     = Raise (ValueError
                (msg_not_same_ROIs 1 0 ["FOV_2"; "FOV_1"] ["FOV_1"; "FOV_2"])).
Proof.
  split; [|reflexivity]. intros roi. simpl. tauto.
Qed.

Lemma reference_with_translation_columns_refused_witness :
  add_zero_translation_columns 0%Z example_cycle1
  = Raise (ValueError msg_already_translation_columns)
  /\ apply_registration_to_ROI_tables 0%Z Z.add Z.sub Z.leb
       (fun _ => Ok example_cycle1) (fun _ => Ok tt) (fun t => Ok t)
       example_images "FOV_ROI_table" 0%Z None
     = mk_outcome [] (Some (ValueError msg_already_translation_columns)).
Proof.
  destruct (reference_with_translation_columns_refused 0%Z Z.add Z.sub Z.leb
              (fun _ => Ok example_cycle1) (fun _ => Ok tt) (fun t => Ok t)
              example_cycle1 "translation_x") as [H1 H2].
  - simpl. tauto.
  - simpl. tauto.
  - split; [exact H1|].
    destruct (H2 example_images [(0, "0"); (1, "1")]%Z "FOV_ROI_table" 0%Z None)
      as [_ H]; [reflexivity | by left | reflexivity |].
    apply (H [1%Z]). reflexivity.
Defined.

(** The task on the example: the reference cycle gets zero translations
    and both registered tables are written; along x the window of [FOV_1]
    loses 5 in both cycles. *)
Example apply_registration_example :
  apply_registration_to_ROI_tables 0%Z Z.add Z.sub Z.leb example_read_zarr
    (fun _ => Ok tt) (fun t => Ok t) example_images "FOV_ROI_table" 0%Z None
  = mk_outcome
      [(0, "registered_FOV_ROI_table",
         mk_AnnData ["FOV_1"; "FOV_2"] (roi_columns ++ translation_columns)
           [[Some 5; Some 0; Some 0; Some 95; Some 77; Some 10;
             Some 0; Some 0; Some 0];
            [Some 100; Some 2; Some 1; Some 96; Some 78; Some 9;
             Some 0; Some 0; Some 0]]);
       (1, "registered_FOV_ROI_table",
         mk_AnnData ["FOV_1"; "FOV_2"] (roi_columns ++ translation_columns)
           [[Some 0; Some 3; Some 0; Some 95; Some 77; Some 10;
             Some 0; Some (-3); Some 5];
            [Some 104; Some 0; Some 0; Some 96; Some 78; Some 9;
             Some 1; Some 2; Some (-4)]])]%Z
      None.
Proof. reflexivity. Qed.

Example re_split_digits_examples :
  Py.re_split_digits "T0001F006L01A04Z14C01"
  = ["T"; "0001"; "F"; "006"; "L"; "01"; "A"; "04"; "Z"; "14"; "C"; "01"; ""]
  /\ Py.re_split_digits "" = [""]
  /\ Py.re_split_digits "ab" = ["ab"]
  /\ Py.re_split_digits "12" = [""; "12"; ""]
  /\ Py.re_split_digits "a1b" = ["a"; "1"; "b"].
Proof. repeat split. Qed.

Example parse_filename_trailing_key_fails :
  parse_filename
    (fun _ => Ok "210305NAR005AAN_210416_164828_B11_T0001F006L01A04Z14C01K01")
    "210305NAR005AAN_210416_164828_B11_T0001F006L01A04Z14C01K01.tif"
  = Raise (ValueError
             (msg_something_wrong_TFLAZC
                "210305NAR005AAN_210416_164828_B11_T0001F006L01A04Z14C01K01"
                "T0001F006L01A04Z14C01K01")).
Proof. reflexivity. Qed.

Example get_plate_name_examples :
  get_plate_name "210305NAR005AAN_210416_164828" = "210305NAR005AAN"
  /\ get_plate_name "220304_172545_220304_175557" = "RS220304172545"
  /\ get_plate_name "AssayPlate_Greiner_#655090" = "AssayPlate_Greiner_#655090"
  /\ get_plate_name "20200812-CardiomyocyteDifferentiation14-Cycle1"
     = "20200812-CardiomyocyteDifferentiation14-Cycle1".
Proof. repeat split. Qed.

(** * Further properties *)

(** ** The well codec, the other way round *)

Lemma length_6_inv (s : string) :
  String.length s = 6%nat ->
  exists a b c d e f,
    s = String a (String b (String c (String d (String e (String f ""))))).
Proof.
  destruct s as [|a [|b [|c [|d [|e [|f [|g s]]]]]]]; simpl; intros H;
    try discriminate; eauto 10.
Qed.

Ltac split_dots :=
  repeat match goal with
    | |- context [Ascii.eqb ?c "."%char] =>
        destruct (Ascii.eqb_spec c "."%char); subst
    | H : context [Ascii.eqb ?c "."%char] |- _ =>
        destruct (Ascii.eqb_spec c "."%char); subst
    end.

(** X1.  An id that decodes, of length 3 or with its dot as fourth
    character, is the encoding of its decoded pair. *)
Theorem encode_decode (well_id row col : string) :
  _extract_row_col_from_well_id well_id = Ok (row, col) ->
  String.length well_id = 3%nat \/ String.get 3 well_id = Some "."%char ->
  get_filename_well_id row col = Ok well_id.
Proof.
  unfold _extract_row_col_from_well_id.
  destruct (Nat.eqb_spec (String.length well_id) 3) as [H3|H3]; cbn [andb].
  - destruct (Nat.eqb_spec (Str.count "." well_id) 0) as [H0|H0];
      cbn [andb].
    + string_shape H3. cbn. intros [= <- <-] _. reflexivity.
    + destruct (Nat.eqb_spec (String.length well_id) 6) as [H6|H6];
        [congruence | discriminate].
  - destruct (Nat.eqb_spec (String.length well_id) 6) as [H6|H6];
      cbn [andb]; [|discriminate].
    destruct (Nat.eqb_spec (Str.count "." well_id) 1) as [H1|H1];
      [|discriminate].
    apply length_6_inv in H6 as (a & b & c & d & e & f & ->).
    intros Hd [Hl|Hdot]; [done|]. cbn in Hdot. injection Hdot as ->.
    cbn in H1, Hd. split_dots; try discriminate; cbn in Hd;
      injection Hd as <- <-; reflexivity.
Qed.

Lemma encode_decode_witness :
  get_filename_well_id "Bd" "031" = Ok "B03.d1".
Proof.
  apply (encode_decode "B03.d1" "Bd" "031"); [reflexivity | by right].
Defined.

(** X2.  On an id of six characters with one dot, the place of the dot
    decides: first, fifth or sixth character, the decoder raises
    [IndexError]; second, third or fourth, it returns a two-character row
    and a column of as many characters as precede the dot. *)
Theorem decode_by_dot_position (well_id : string) (k : nat) :
  String.length well_id = 6%nat ->
  Str.count "." well_id = 1%nat ->
  String.get k well_id = Some "."%char ->
  ((k = 0 \/ k = 4 \/ k = 5)%nat ->
   _extract_row_col_from_well_id well_id = Raise IndexError)
  /\ ((k = 1 \/ k = 2 \/ k = 3)%nat ->
      exists row col,
        _extract_row_col_from_well_id well_id = Ok (row, col)
        /\ String.length row = 2%nat /\ String.length col = k).
Proof.
  intros H6 H1 Hk.
  apply length_6_inv in H6 as (a & b & c & d & e & f & ->).
  destruct k as [|[|[|[|[|[|k]]]]]]; cbn in Hk; [..|discriminate Hk];
    injection Hk as ->; (split; intros Hpos; [try lia | try lia]);
    unfold _extract_row_col_from_well_id; cbn in H1 |- *;
    split_dots; try discriminate; cbn; eauto.
Qed.

Lemma decode_by_dot_position_witness :
  _extract_row_col_from_well_id ".A01a1" = Raise IndexError
  /\ exists row col,
      _extract_row_col_from_well_id "A.01a1" = Ok (row, col)
      /\ String.length row = 2%nat /\ String.length col = 1%nat.
Proof.
  split.
  - apply (decode_by_dot_position ".A01a1" 0); auto.
  - apply (decode_by_dot_position "A.01a1" 1); auto.
Defined.

(** ** Sorting wells *)

Lemma tuple_le_antisym (p q : string * string) :
  tuple_le p q -> tuple_le q p -> p = q.
Proof.
  intros [H1 H2] [H3 H4].
  assert (E : fst p = fst q) by (by apply (anti_symm String.le)).
  destruct p as [p1 p2], q as [q1 q2]; simpl in *. subst. f_equal.
  apply (anti_symm String.le); auto.
Qed.

Lemma sorted_unique (l1 l2 : list (string * string)) :
  StronglySorted tuple_le l1 -> StronglySorted tuple_le l2 ->
  Permutation l1 l2 -> l1 = l2.
Proof.
  intros S1. revert l2. induction S1 as [|x l1 S1 IH F1]; intros l2 S2 P.
  - by apply Permutation_nil in P.
  - destruct S2 as [|y l2 S2 F2].
    { symmetry in P. by apply Permutation_nil in P. }
    assert (x = y) as ->.
    { rewrite List.Forall_forall in F1, F2.
      assert (Hy : In y (x :: l1)).
      { eapply Permutation_in; [symmetry; exact P | by left]. }
      assert (Hx : In x (y :: l2)).
      { eapply Permutation_in; [exact P | by left]. }
      destruct Hy as [->|Hy]; [done|]. destruct Hx as [->|Hx]; [done|].
      apply tuple_le_antisym; [by apply F1 | by apply F2]. }
    f_equal. apply IH; [done|]. by eapply Permutation_cons_inv.
Qed.

Lemma map_result_Permutation {A B} (f : A -> result B) (l l' : list A) :
  Permutation l l' ->
  forall r, map_result f l = Ok r ->
            exists r', map_result f l' = Ok r' /\ Permutation r r'.
Proof.
  induction 1 as [|x l l' _ IH|x y l|l l' l'' _ IH1 _ IH2]; intros r Hr.
  - exists r. by split.
  - cbn [map_result] in *. apply bind_Ok in Hr as (b & Hb & Hr).
    apply bind_Ok in Hr as (bs & Hbs & [= <-]).
    destruct (IH bs Hbs) as (bs' & -> & P). rewrite Hb. cbn [bind].
    exists (b :: bs'). split; [done | by constructor].
  - cbn [map_result] in *. apply bind_Ok in Hr as (b & Hb & Hr).
    apply bind_Ok in Hr as (bs & Hbs & [= <-]).
    apply bind_Ok in Hbs as (c & Hc & Hbs).
    apply bind_Ok in Hbs as (cs & Hcs & [= <-]).
    rewrite Hc, Hb, Hcs. cbn [bind]. exists (c :: b :: cs).
    split; [done | apply perm_swap].
  - destruct (IH1 r Hr) as (r' & Hr' & P1).
    destruct (IH2 r' Hr') as (r'' & Hr'' & P2).
    exists r''. split; [done | by etrans].
Qed.

(** X3.  The result does not depend on the order of the well ids: a list
    that decodes and any rearrangement of it give the same sorted pairs. *)
Theorem generate_row_col_split_order (wells wells' : list string)
    (res : list (string * string)) :
  Permutation wells wells' ->
  generate_row_col_split wells = Ok res ->
  generate_row_col_split wells' = Ok res.
Proof.
  intros P. unfold generate_row_col_split. intros H.
  apply bind_Ok in H as (pairs & Hpairs & [= <-]).
  destruct (map_result_Permutation _ _ _ P pairs Hpairs) as (pairs' & -> & P').
  cbn [bind]. f_equal. symmetry.
  apply sorted_unique; [apply sorted_sorted | apply sorted_sorted|].
  by rewrite <- !sorted_perm.
Qed.

Lemma generate_row_col_split_order_witness :
  generate_row_col_split ["H08"; "A01"; "B07"; "B03"]
  = Ok [("A", "01"); ("B", "03"); ("B", "07"); ("H", "08")].
Proof.
  apply (generate_row_col_split_order ["B03"; "B07"; "A01"; "H08"]);
    [|reflexivity].
  apply (bool_decide_unpack _). by vm_compute.
Defined.

(** X4.  The first id that does not decode ends the call with its own
    exception, whatever follows it. *)
Theorem generate_row_col_split_first_error (before after : list string)
    (well : string) (e : exn) :
  Forall (fun w => is_ok (_extract_row_col_from_well_id w) = true) before ->
  _extract_row_col_from_well_id well = Raise e ->
  generate_row_col_split (before ++ well :: after) = Raise e.
Proof.
  intros Hb Hw. unfold generate_row_col_split.
  assert (E : map_result _extract_row_col_from_well_id
                (before ++ well :: after) = Raise e).
  { induction Hb as [|w before Hok _ IH]; cbn [app map_result].
    - by rewrite Hw.
    - destruct (_extract_row_col_from_well_id w); [|discriminate].
      cbn [bind]. by rewrite IH. }
  by rewrite E.
Qed.

Lemma generate_row_col_split_first_error_witness :
  generate_row_col_split ["A01.a1"; "A"; "B.3"]
  = Raise (NotImplementedError (msg_wells_like "A")).
Proof.
  apply (generate_row_col_split_first_error ["A01.a1"] ["B.3"] "A").
  - by repeat constructor.
  - reflexivity.
Defined.

(** ** More on the filename parser *)

Lemma concat_cons_char (sep : string) (c : ascii) (t : string)
    (rest : list string) :
  String.concat sep (String c t :: rest)
  = String c (String.concat sep (t :: rest)).
Proof. destruct rest; [done|]. cbn [String.concat]. by rewrite append_cons. Qed.

Lemma join_split (c : ascii) (s : string) :
  Str.join (String c "") (Str.split c s) = s.
Proof.
  unfold Str.join. induction s as [|d s IH]; cbn [Str.split]; [done|].
  destruct (Ascii.eqb_spec d c) as [->|Hne].
  - destruct (Str.split c s) as [|p ps] eqn:E; [simpl in IH; by subst|].
    change (String.concat (String c "") ("" :: p :: ps))
      with ("" +:+ String c "" +:+ String.concat (String c "") (p :: ps)).
    by rewrite IH.
  - destruct (Str.split c s) as [|p ps] eqn:E; [simpl in IH; by subst|].
    by rewrite concat_cons_char, IH.
Qed.

Lemma append_assoc (a b c : string) : (a +:+ b) +:+ c = a +:+ b +:+ c.
Proof. induction a as [|x a IH]; [done|]. by rewrite !append_cons, IH. Qed.

Lemma join_app (sep : string) (l1 l2 : list string) :
  l1 <> [] -> l2 <> [] ->
  Str.join sep (l1 ++ l2) = Str.join sep l1 +:+ sep +:+ Str.join sep l2.
Proof.
  unfold Str.join. intros H1 H2. induction l1 as [|x l1 IH]; [done|].
  destruct l1 as [|y l1].
  - destruct l2 as [|z l2]; [done|]. reflexivity.
  - change (String.concat sep ((x :: y :: l1) ++ l2))
      with (x +:+ sep +:+ String.concat sep ((y :: l1) ++ l2)).
    rewrite IH by done.
    change (String.concat sep (x :: y :: l1))
      with (x +:+ sep +:+ String.concat sep (y :: l1)).
    by rewrite !append_assoc.
Qed.

Lemma last_two_fields (l : list string) :
  (2 <= length l)%nat ->
  l = Py.all_but_last_two l ++ [nth (length l - 2) l ""; List.last l ""].
Proof.
  intros Hlen. unfold Py.all_but_last_two.
  rewrite <- (firstn_skipn (length l - 2) l) at 1. f_equal.
  assert (Hs : length (skipn (length l - 2) l) = 2%nat).
  { rewrite length_skipn. lia. }
  destruct (skipn (length l - 2) l) as [|a [|b [|c r]]] eqn:E;
    try discriminate Hs.
  pose proof (firstn_skipn (length l - 2) l) as Hl. rewrite E in Hl.
  assert (Hf : length (firstn (length l - 2) l) = (length l - 2)%nat).
  { rewrite length_firstn. lia. }
  f_equal; [|f_equal].
  - rewrite <- Hl at 2. rewrite app_nth2 by lia.
    rewrite Hf, Nat.sub_diag. reflexivity.
  - rewrite <- Hl at 1. change [a; b] with ([a] ++ [b]).
    by rewrite app_assoc, List.last_last.
Qed.

(** X5.  Nothing of the name is lost: on a name of at least three fields,
    the plate prefix, the well and the last field, joined by underscores,
    are the name again. *)
Theorem plate_prefix_well_token_rebuild (stem : string) :
  (3 <= length (Str.split "_" stem))%nat ->
  exists prefix well,
    plate_and_well (Str.split "_" stem) !! "plate_prefix" = Some prefix
    /\ plate_and_well (Str.split "_" stem) !! "well" = Some well
    /\ prefix +:+ "_" +:+ well +:+ "_"
         +:+ List.last (Str.split "_" stem) "" = stem.
Proof.
  intros Hlen. eexists _, _. split; [reflexivity|]. split; [reflexivity|].
  set (fields := Str.split "_" stem) in *.
  assert (E : Str.join "_"
                (Py.all_but_last_two fields
                 ++ [nth (length fields - 2) fields ""; List.last fields ""])
              = stem).
  { rewrite <- last_two_fields by lia. apply join_split. }
  rewrite join_app in E; [exact E | | done].
  unfold Py.all_but_last_two. intros E'.
  apply (f_equal (@length string)) in E'. rewrite length_firstn in E'.
  simpl in E'. lia.
Qed.

Lemma plate_prefix_well_token_rebuild_witness :
  "210305NAR005AAN_210416_164828" +:+ "_" +:+ "B11" +:+ "_"
    +:+ "T0001F006L01A04Z14C01"
  = "210305NAR005AAN_210416_164828_B11_T0001F006L01A04Z14C01".
Proof.
  destruct (plate_prefix_well_token_rebuild
              "210305NAR005AAN_210416_164828_B11_T0001F006L01A04Z14C01")
    as (prefix & well & Hp & Hw & E); [vm_compute; lia|].
  vm_compute in Hp, Hw. injection Hp as <-. injection Hw as <-. exact E.
Defined.

Lemma fill_output_Raise filename (seen pairs : list (string * string))
    output e :
  fill_output filename (flatten_pairs (seen ++ pairs)) (length seen)
    (map fst pairs) output = Raise e ->
  exists k v,
    In (k, v) pairs
    /\ e = ValueError (msg_something_wrong_key_value filename k v)
    /\ (Py.isdigit k = true \/ Py.isdigit v = false).
Proof.
  revert seen output.
  induction pairs as [|[k v] pairs IH]; intros seen output; [discriminate|].
  cbn [map fst fill_output]. rewrite list_index_value. cbn [bind].
  specialize (IH (seen ++ [(k, v)]) (<[k := v]> output)).
  rewrite <- app_assoc, length_app in IH. cbn [app length] in IH.
  replace (length seen + 1)%nat with (S (length seen)) in IH by lia.
  destruct (Py.isdigit k) eqn:Ek; cbn [orb negb].
  { intros [= <-]. exists k, v. split; [by left | auto]. }
  destruct (Py.isdigit v) eqn:Ev; cbn [orb negb].
  - intros H. destruct (IH H) as (k' & v' & Hin & He & Hd).
    exists k', v'. split; [by right | auto].
  - intros [= <-]. exists k, v. split; [by left | auto].
Qed.

Lemma split_pieces_keys first (l : list string) :
  split_pieces first l ->
  Forall (fun kv => plain_text (fst kv))
    (key_value_pairs (List.removelast l)).
Proof.
  induction 1 as [|first t d rest Ht _ Hd Hrest IH]; [constructor|].
  destruct rest as [|t' rest]; [inversion Hrest|].
  change (List.removelast (t :: d :: t' :: rest))
    with (t :: d :: List.removelast (t' :: rest)).
  cbn [key_value_pairs]. constructor; [exact Ht | exact IH].
Qed.

(** X6.  The loop over the pairs can only refuse a key: a value is a run
    of [[0-9]], so [not value.isdigit()] never holds, and the key of the
    error is made of digits that are not in [[0-9]]. *)
Theorem key_value_error_cause (path_stem : string -> result string)
    (filename stem f k v : string) :
  path_stem filename = Ok stem ->
  parse_filename path_stem filename
  = Raise (ValueError (msg_something_wrong_key_value f k v)) ->
  f = stem /\ Py.isdigit k = true /\ plain_text k /\ Py.isdigit v = true.
Proof.
  intros Hstem. unfold parse_filename. rewrite Hstem. cbn [bind].
  destruct (length (Str.split "_" stem) <? 3)%nat; [discriminate|].
  set (pieces := Py.re_split_digits (List.last (Str.split "_" stem) "")).
  destruct (negb (String.eqb (List.last pieces "") "")); [discriminate|].
  cbn [orb].
  destruct (Nat.eqb_spec (length pieces) 13) as [H13|H13];
    cbn [negb]; [|discriminate].
  pose proof (proj1 (re_split_digits_pieces
                       (List.last (Str.split "_" stem) ""))) as Hsp.
  fold pieces in Hsp.
  pose proof (split_pieces_values _ _ Hsp) as Hvals.
  pose proof (split_pieces_keys _ _ Hsp) as Hkeys.
  set (pairs := key_value_pairs (List.removelast pieces)) in *.
  assert (Hflat : List.removelast pieces = flatten_pairs ([] ++ pairs)
                  /\ Py.every_other (List.removelast pieces) = map fst pairs).
  { subst pairs. clearbody pieces. clear Hsp Hvals Hkeys.
    do 13 (destruct pieces as [|? pieces]; [discriminate H13|]).
    destruct pieces; [|discriminate H13]. split; reflexivity. }
  destruct Hflat as [-> ->]. intros H.
  apply (fill_output_Raise stem [] pairs) in H
    as (k' & v' & Hin & [= -> -> ->] & Hd).
  rewrite List.Forall_forall in Hvals, Hkeys.
  specialize (Hvals _ Hin). specialize (Hkeys _ Hin). simpl in Hvals, Hkeys.
  destruct Hd as [Hd|Hd]; [done | congruence].
Qed.

Lemma key_value_error_cause_witness :
  Py.isdigit (String "178"%char "") = true
  /\ plain_text (String "178"%char "").
Proof.
  destruct (key_value_error_cause
              (fun _ => Ok ("a_b_" +:+ String "178"%char "1F2L3A4Z5C6"))
              "a_b_.png" ("a_b_" +:+ String "178"%char "1F2L3A4Z5C6")
              ("a_b_" +:+ String "178"%char "1F2L3A4Z5C6")
              (String "178"%char "") "1" eq_refl eq_refl)
    as (_ & Hk & Hp & _).
  by split.
Defined.

Lemma count_append (c : ascii) (a b : string) :
  Str.count c (a +:+ b) = (Str.count c a + Str.count c b)%nat.
Proof.
  induction a as [|x a IH]; [done|]. rewrite append_cons. simpl.
  rewrite IH. lia.
Qed.

Lemma get_plate_name_single_field (p : string) :
  Str.count "_" p = 0%nat -> get_plate_name p = p.
Proof.
  intros H. unfold get_plate_name. by rewrite (split_no_sep "_" p H).
Qed.

Lemma get_plate_name_cases (p : string) :
  get_plate_name p = p \/ Str.count "_" (get_plate_name p) = 0%nat.
Proof.
  pose proof (split_pieces_no_sep "_" p) as Hf.
  assert (Hnth : forall i, Str.count "_" (nth i (Str.split "_" p) "")
                           = 0%nat).
  { intros i. destruct (nth_in_or_default i (Str.split "_" p) "")
      as [Hin| ->]; [|done].
    rewrite List.Forall_forall in Hf. by apply Hf. }
  unfold get_plate_name.
  destruct (_ && _ && _ && _ && _); [right; apply Hnth|].
  destruct (_ && _ && _ && _ && _ && _ && _ && _ && _); [right | by left].
  rewrite !count_append, !Hnth. reflexivity.
Qed.

(** X7.  A plate name is its own plate name: the barcode and the name
    made of scan date and time have no underscore, and every other prefix
    is kept as it is. *)
Theorem get_plate_name_idempotent (plate_prefix : string) :
  get_plate_name (get_plate_name plate_prefix) = get_plate_name plate_prefix.
Proof.
  destruct (get_plate_name_cases plate_prefix) as [E|E].
  - rewrite E. exact E.
  - by apply get_plate_name_single_field.
Qed.

(** ** More on the size of the fields of view *)

Lemma img_size_loop_Ok ref s l r :
  img_size_loop (Some ref) (Some s) l = Ok r ->
  Forall (fun i => img_size_of i = ref) l /\ (r = Some s \/ r = Some ref).
Proof.
  revert s. induction l as [|i l IH]; intros s; simpl.
  - intros [= <-]. split; [constructor | by left].
  - destruct (img_size_eqb_spec (img_size_of i) ref) as [E|E]; simpl;
      [|discriminate].
    intros H. destruct (IH _ H) as [F Hr]. split; [by constructor|].
    right. destruct Hr as [->| ->]; by rewrite ?E.
Qed.

Lemma img_size_loop_all ref l :
  Forall (fun i => img_size_of i = ref) l ->
  img_size_loop (Some ref) (Some ref) l = Ok (Some ref).
Proof.
  induction 1 as [|i l Hi _ IH]; simpl; [done|].
  destruct (img_size_eqb_spec (img_size_of i) ref); [|contradiction].
  simpl. by rewrite Hi.
Qed.

(** X8.  The check returns a size exactly when there is at least one
    window and all windows have that (y, x) size; without any window the
    name [img_size] is unbound and the code raises [NameError]. *)
Theorem illumination_correction_img_size_Ok (list_indices : list indices)
    (s : Z * Z) :
  (illumination_correction_img_size list_indices = Ok s
   <-> list_indices <> []
       /\ forall i, In i list_indices -> img_size_of i = s)
  /\ illumination_correction_img_size [] = Raise (NameError "img_size").
Proof.
  split; [|reflexivity]. unfold illumination_correction_img_size.
  destruct list_indices as [|i l]; simpl.
  - split; [discriminate | by intros [? _]].
  - split.
    + destruct (img_size_loop (Some (img_size_of i)) (Some (img_size_of i)) l)
        as [r|e] eqn:E; simpl; [|discriminate].
      apply img_size_loop_Ok in E as [F Hr].
      assert (r = Some (img_size_of i)) as -> by (by destruct Hr).
      intros [= <-]. split; [done|]. intros j [<-|Hj]; [done|].
      rewrite List.Forall_forall in F. by apply F.
    + intros [_ H]. rewrite (H i (or_introl eq_refl)).
      rewrite img_size_loop_all; [done|].
      apply List.Forall_forall. intros j Hj. apply H. by right.
Qed.

(** ** The acquisitions of a well *)

Lemma dict_mem_In {V} (d : list (Z * V)) (k : Z) :
  Dict.mem d k = true <-> In k (Dict.keys d).
Proof.
  induction d as [|[k' v] d IH]; simpl; [done|].
  rewrite orb_true_iff, IH, Z.eqb_eq. tauto.
Qed.

Lemma dict_set_fresh {V} (d : list (Z * V)) (k : Z) (v : V) :
  Dict.mem d k = false -> Dict.set d k v = d ++ [(k, v)].
Proof.
  induction d as [|[k' v'] d IH]; simpl; [done|].
  destruct (k' =? k)%Z; simpl; [discriminate|]. intros H. by rewrite IH.
Qed.

Lemma get_acquisition_paths_loop_spec (images : list image)
    (acc d : list (Z * string)) :
  NoDup (Dict.keys acc) ->
  get_acquisition_paths_loop images acc = Ok d
  <-> exists d',
      d = acc ++ d'
      /\ images = map (fun kv => mk_image (Some (fst kv)) (snd kv)) d'
      /\ NoDup (Dict.keys d).
Proof.
  revert acc. induction images as [|[[a|] p] images IH]; intros acc ND;
    cbn [get_acquisition_paths_loop acquisition path].
  - split.
    + intros [= <-]. exists []. by rewrite app_nil_r.
    + intros (d' & -> & E & _). destruct d'; [|discriminate].
      by rewrite app_nil_r.
  - destruct (Dict.mem acc a) eqn:Hm.
    + split; [discriminate|]. intros (d' & -> & E & ND').
      destruct d' as [|[a' p'] d']; [discriminate|].
      simpl in E. injection E as <- <- E.
      exfalso. apply dict_mem_In in Hm. unfold Dict.keys in *.
      rewrite map_app in ND'. apply NoDup_app in ND' as (_ & Hd & _).
      apply (Hd a); [by apply list_elem_of_In | by left].
    + rewrite (dict_set_fresh acc a p Hm). rewrite IH.
      * split.
        -- intros (d' & Hd & Hi & ND'). exists ((a, p) :: d').
           rewrite <- app_assoc in Hd. subst images.
           split; [exact Hd|]. split; [reflexivity | exact ND'].
        -- intros (d' & Hd & E & ND').
           destruct d' as [|[a' p'] d']; [discriminate|].
           simpl in E. injection E as <- <- E. exists d'.
           rewrite <- app_assoc.
           split; [exact Hd|]. split; [exact E | exact ND'].
      * unfold Dict.keys. rewrite map_app. apply NoDup_app.
        split; [done|]. split; [|by apply NoDup_singleton].
        intros x Hx Hx'. simpl in Hx'.
        apply list_elem_of_In in Hx' as [<-|[]].
        apply list_elem_of_In, dict_mem_In in Hx. congruence.
  - split; [discriminate|]. intros (d' & _ & E & _).
    destruct d' as [|[a' p'] d']; discriminate.
Qed.

(** X9.  [get_acquisition_paths] returns a dictionary exactly when every
    image has an acquisition and no acquisition occurs twice; the
    dictionary then lists the acquisitions with their paths in the order of
    the images. *)
Theorem get_acquisition_paths_spec (images : list image)
    (acquisition_dict : list (Z * string)) :
  get_acquisition_paths images = Ok acquisition_dict
  <-> images = map (fun kv => mk_image (Some (fst kv)) (snd kv))
                 acquisition_dict
      /\ NoDup (Dict.keys acquisition_dict).
Proof.
  unfold get_acquisition_paths.
  rewrite (get_acquisition_paths_loop_spec images [] acquisition_dict)
    by constructor.
  split.
  - by intros (d' & -> & -> & ND).
  - intros (-> & ND). by exists acquisition_dict.
Qed.

(** The two ways [get_acquisition_paths] refuses a well. *)
Example get_acquisition_paths_errors :
  get_acquisition_paths [mk_image (Some 0%Z) "0"; mk_image None "1"]
  = Raise (ValueError (msg_external "no 'acquisition' metadata"))
  /\ get_acquisition_paths [mk_image (Some 0%Z) "0"; mk_image (Some 0%Z) "1"]
     = Raise (NotImplementedError
                (msg_external "multiple images of the same acquisition")).
Proof. split; reflexivity. Qed.

(** ** What a registration reads and what it leaves alone *)

Section RegistrationFrame.

Context {num : Type}.
Variables add sub : num -> num -> num.
Implicit Types (t : @AnnData num) (max_df min_df : @DataFrame num).

Lemma set_cell_names t roi col v t' :
  set_cell t roi col v = Ok t' ->
  obs_names t' = obs_names t /\ var_names t' = var_names t.
Proof.
  intros H. by apply set_cell_inv in H as (i & j & row & _ & _ & _ & _ & ->).
Qed.

Lemma shift_position_inv max_df roi col tcol t t' :
  shift_position add sub max_df roi col tcol t = Ok t' ->
  (exists p mx own,
      cell t roi col = Ok p /\ loc max_df roi tcol = Ok mx
      /\ cell t roi tcol = Ok own)
  /\ (forall roi' col',
         roi' <> roi \/ col' <> col -> cell t' roi' col' = cell t roi' col')
  /\ obs_names t' = obs_names t /\ var_names t' = var_names t.
Proof.
  unfold shift_position. intros H.
  apply bind_Ok in H as (p & Hp & H). apply bind_Ok in H as (mx & Hmx & H).
  apply bind_Ok in H as (own & Hown & H).
  split; [eauto 10|]. split.
  - intros roi' col'. by eapply cell_set_cell_other.
  - by eapply set_cell_names.
Qed.

Lemma shrink_extent_inv max_df min_df roi col tcol t t' :
  shrink_extent add sub max_df min_df roi col tcol t = Ok t' ->
  (exists l mx mn,
      cell t roi col = Ok l /\ loc max_df roi tcol = Ok mx
      /\ loc min_df roi tcol = Ok mn)
  /\ (forall roi' col',
         roi' <> roi \/ col' <> col -> cell t' roi' col' = cell t roi' col')
  /\ obs_names t' = obs_names t /\ var_names t' = var_names t.
Proof.
  unfold shrink_extent. intros H.
  apply bind_Ok in H as (l & Hl & H). apply bind_Ok in H as (mx & Hmx & H).
  apply bind_Ok in H as (mn & Hmn & H).
  split; [eauto 10|]. split.
  - intros roi' col'. by eapply cell_set_cell_other.
  - by eapply set_cell_names.
Qed.

(** What [register_roi] must have read to return. *)
Lemma register_roi_reads max_df min_df roi t t' :
  register_roi add sub max_df min_df roi t = Ok t' ->
  (exists p l own mx mn : axis -> option num,
      (forall a, cell t roi (position_column a) = Ok (p a))
      /\ (forall a, cell t roi (extent_column a) = Ok (l a))
      /\ (forall a, cell t roi (translation_column a) = Ok (own a))
      /\ (forall a, loc max_df roi (translation_column a) = Ok (mx a))
      /\ (forall a, loc min_df roi (translation_column a) = Ok (mn a)))
  /\ obs_names t' = obs_names t /\ var_names t' = var_names t.
Proof.
  unfold register_roi. intros H.
  apply bind_Ok in H as (t1 & H1 & H). apply bind_Ok in H as (t2 & H2 & H).
  apply bind_Ok in H as (t3 & H3 & H). apply bind_Ok in H as (t4 & H4 & H).
  apply bind_Ok in H as (t5 & H5 & H6).
  apply shift_position_inv in H1
    as ((pz & mxz & oz & Pz & Mz & Oz) & U1 & N1 & V1).
  apply shift_position_inv in H2
    as ((py & mxy & oy & Py & My & Oy) & U2 & N2 & V2).
  apply shift_position_inv in H3
    as ((px & mxx & ox & Px & Mx & Ox) & U3 & N3 & V3).
  apply shrink_extent_inv in H4
    as ((lz & mxz' & mnz & Lz & Mz' & Nz) & U4 & N4 & V4).
  apply shrink_extent_inv in H5
    as ((ly & mxy' & mny & Ly & My' & Ny) & U5 & N5 & V5).
  apply shrink_extent_inv in H6
    as ((lx & mxx' & mnx & Lx & Mx' & Nx) & U6 & N6 & V6).
  rewrite U1 in Py, Oy by (right; discriminate).
  rewrite U2, U1 in Px, Ox by (right; discriminate).
  rewrite U3, U2, U1 in Lz by (right; discriminate).
  rewrite U4, U3, U2, U1 in Ly by (right; discriminate).
  rewrite U5, U4, U3, U2, U1 in Lx by (right; discriminate).
  split; [|split; congruence].
  exists (fun a => match a with axis_z => pz | axis_y => py | axis_x => px end),
    (fun a => match a with axis_z => lz | axis_y => ly | axis_x => lx end),
    (fun a => match a with axis_z => oz | axis_y => oy | axis_x => ox end),
    (fun a => match a with axis_z => mxz | axis_y => mxy | axis_x => mxx end),
    (fun a => match a with axis_z => mnz | axis_y => mny | axis_x => mnx end).
  repeat split; intros []; assumption.
Qed.

Lemma register_roi_inv max_df min_df roi t t' :
  register_roi add sub max_df min_df roi t = Ok t' ->
  (forall a, exists p l own mx mn,
      cell t roi (position_column a) = Ok p
      /\ cell t roi (extent_column a) = Ok l
      /\ cell t roi (translation_column a) = Ok own
      /\ loc max_df roi (translation_column a) = Ok mx
      /\ loc min_df roi (translation_column a) = Ok mn
      /\ cell t' roi (position_column a) = Ok (fsub sub (fadd add p mx) own)
      /\ cell t' roi (extent_column a) = Ok (fadd add (fsub sub l mx) mn))
  /\ (forall roi' col',
         roi' <> roi
         \/ (forall a, col' <> position_column a /\ col' <> extent_column a) ->
         cell t' roi' col' = cell t roi' col')
  /\ obs_names t' = obs_names t /\ var_names t' = var_names t.
Proof.
  intros H.
  destruct (register_roi_reads _ _ _ _ _ H)
    as ((p & l & own & mx & mn & Hp & Hl & Hown & Hmx & Hmn) & Hnames).
  destruct (register_roi_spec add sub max_df min_df roi t p l own mx mn
              Hp Hl Hown Hmx Hmn) as (t'' & E & P & L & O).
  rewrite H in E. injection E as <-.
  split; [|split; [exact O | exact Hnames]].
  intros a. exists (p a), (l a), (own a), (mx a), (mn a). eauto 10.
Qed.

Lemma apply_registration_unchanged max_df min_df rois :
  forall t t',
    apply_registration_to_single_ROI_table add sub t max_df min_df rois
    = Ok t' ->
    (forall roi' col',
        ~ In roi' rois
        \/ (forall a, col' <> position_column a /\ col' <> extent_column a) ->
        cell t' roi' col' = cell t roi' col')
    /\ obs_names t' = obs_names t /\ var_names t' = var_names t.
Proof.
  induction rois as [|roi rois IH]; intros t t';
    cbn [apply_registration_to_single_ROI_table].
  - by intros [= <-].
  - intros H. apply bind_Ok in H as (t1 & H1 & H).
    apply register_roi_inv in H1 as (_ & O1 & N1 & V1).
    destruct (IH _ _ H) as (O & N & V). split; [|split; congruence].
    intros roi' col' Hne. rewrite O, O1; [done | |].
    + destruct Hne as [Hne|Hne]; [left | by right].
      intros ->. apply Hne. by left.
    + destruct Hne as [Hne|Hne]; [left | by right].
      intros Hin. apply Hne. by right.
Qed.

(** X10.  A registration that returns has kept the names of the ROIs and
    of the columns, every translation, every cell of a column other than
    the three positions and the three extents, and every cell of a ROI that
    is not in [rois]. *)
Theorem registration_keeps (t t' : @AnnData num) max_df min_df
    (rois : list string) :
  apply_registration_to_single_ROI_table add sub t max_df min_df rois = Ok t' ->
  obs_names t' = obs_names t
  /\ var_names t' = var_names t
  /\ (forall roi a,
         cell t' roi (translation_column a) = cell t roi (translation_column a))
  /\ (forall roi col,
         (forall a, col <> position_column a /\ col <> extent_column a) ->
         cell t' roi col = cell t roi col)
  /\ (forall roi col, ~ In roi rois -> cell t' roi col = cell t roi col).
Proof.
  intros H. apply apply_registration_unchanged in H as (O & N & V).
  split; [done|]. split; [done|]. split; [|split].
  - intros roi a. apply O. right. intros b. by destruct a, b.
  - intros roi col Hcol. apply O. by right.
  - intros roi col Hroi. apply O. by left.
Qed.

End RegistrationFrame.

(** ** The frames of maxima and minima *)

Lemma shape_entry {A} (n k : nat) (m : list (list A)) (i j : nat) :
  shape n k m -> (i < n)%nat -> (j < k)%nat -> exists v, entry m i j = Some v.
Proof.
  intros [Hn Hk] Hi Hj. unfold entry.
  destruct (lookup_lt_is_Some_2 m i) as [row Hrow]; [lia|]. rewrite Hrow.
  rewrite List.Forall_forall in Hk.
  assert (Hlen : length row = k).
  { apply Hk. apply list_elem_of_In, list_elem_of_lookup. eauto. }
  destruct (lookup_lt_is_Some_2 row j) as [v Hv]; [lia|]. eauto.
Qed.

Section MinLeMax.

Context {num : Type}.
Variable leb : num -> num -> bool.
Hypothesis leb_total : forall a b, leb a b = true \/ leb b a = true.
Hypothesis leb_trans :
  forall a b c, leb a b = true -> leb b c = true -> leb a c = true.

Lemma numeric_entries (n k : nat) (dfs : list (@DataFrame num)) (i j : nat) :
  Forall (fun df =>
            shape n k (values df)
            /\ forall i j v, entry (values df) i j = Some v -> v <> None) dfs ->
  (i < n)%nat -> (j < k)%nat ->
  exists xs,
    Forall2 (fun df e => entry (values df) i j = Some e) dfs (map Some xs)
    /\ length xs = length dfs.
Proof.
  intros F Hi Hj. induction F as [|df dfs [Hs Hnum] _ (xs & F2 & Hlen)].
  - exists []. split; [constructor | done].
  - destruct (shape_entry n k (values df) i j Hs Hi Hj) as [v Hv].
    destruct v as [x|]; [|by apply Hnum in Hv].
    exists (x :: xs). split; [by constructor | simpl; by rewrite Hlen].
Qed.

(** X12.  On a non-empty list of frames of numbers, all of the shape that
    the labels of the first frame give, [calculate_min_max_across_dfs]
    returns two frames with the labels of the first frame, full of
    numbers, and each entry of the frame of minima is at most the entry of
    the frame of maxima at the same place. *)
Theorem min_at_most_max (df0 : @DataFrame num) (rest : list (@DataFrame num)) :
  Forall (fun df =>
            shape (length (index df0)) (length (columns df0)) (values df)
            /\ forall i j v, entry (values df) i j = Some v -> v <> None)
    (df0 :: rest) ->
  exists max_df min_df,
    calculate_min_max_across_dfs leb (df0 :: rest) = Ok (max_df, min_df)
    /\ index max_df = index df0 /\ columns max_df = columns df0
    /\ index min_df = index df0 /\ columns min_df = columns df0
    /\ forall i j,
        (i < length (index df0))%nat -> (j < length (columns df0))%nat ->
        exists mx mn,
          entry (values max_df) i j = Some (Some mx)
          /\ entry (values min_df) i j = Some (Some mn)
          /\ leb mn mx = true.
Proof.
  intros F. set (n := length (index df0)) in *.
  set (k := length (columns df0)) in *.
  destruct (min_max_loop_spec leb n k (df0 :: rest)
              (empty_frame (index df0) (columns df0))
              (empty_frame (index df0) (columns df0)))
    as (max_df & min_df & E & I1 & C1 & I2 & C2 & Hfold);
    [apply empty_frame_shape | apply empty_frame_shape
    | eapply Forall_impl; [exact F | by intros ? [? _]] |].
  exists max_df, min_df. split; [exact E|].
  repeat (split; [done|]). intros i j Hi Hj.
  destruct (numeric_entries n k (df0 :: rest) i j F Hi Hj) as (xs & F2 & Hlen).
  destruct (Hfold i j None None _
              (empty_frame_entry (index df0) (columns df0) i j Hi Hj)
              (empty_frame_entry (index df0) (columns df0) i j Hi Hj) F2)
    as [Emx Emn].
  assert (Hne : xs <> []) by (intros ->; discriminate).
  destruct (fold_max_nan leb leb_total leb_trans xs Hne) as (mx & Hmx & Mmx).
  destruct (fold_min_nan leb leb_total leb_trans xs Hne)
    as (mn & Hmn & [Imn _]).
  exists mx, mn. rewrite Emx, Emn, Hmx, Hmn. repeat split.
  by apply Mmx.
Qed.

End MinLeMax.

(** ** Adding the zero translations *)

Lemma get_indexer_iff (idx : list string) (l : string) (i : nat) :
  get_indexer idx l = Ok i <-> is_unique idx = true /\ position idx l = Some i.
Proof.
  unfold get_indexer. destruct (is_unique idx); [|split; [done | by intros []]].
  destruct (position idx l); split; intros H; try discriminate.
  - by injection H as ->.
  - destruct H as [_ [= ->]]. done.
  - by destruct H.
Qed.

Lemma NoDup_is_unique (idx : list string) : NoDup idx -> is_unique idx = true.
Proof.
  induction 1 as [|x idx Hx _ IH]; [done|]. simpl. rewrite IH, andb_true_r.
  apply negb_true_iff, not_true_iff_false. intros H.
  apply existsb_exists in H as (y & Hy & ->%String.eqb_eq).
  by apply Hx, list_elem_of_In.
Qed.

Lemma position_Some_In (idx : list string) (l : string) (i : nat) :
  position idx l = Some i -> In l idx.
Proof.
  intros H. apply position_lookup in H.
  apply list_elem_of_In, list_elem_of_lookup. eauto.
Qed.

Lemma position_app_l (idx more : list string) (l : string) (i : nat) :
  position idx l = Some i -> position (idx ++ more) l = Some i.
Proof.
  revert i. induction idx as [|x idx IH]; intros i; simpl; [discriminate|].
  destruct (String.eqb x l); [done|].
  destruct (position idx l) as [j|]; [|discriminate].
  intros [= <-]. by rewrite (IH j).
Qed.

Lemma position_app_r (idx more : list string) (l : string) (i : nat) :
  ~ In l idx -> position more l = Some i ->
  position (idx ++ more) l = Some (length idx + i)%nat.
Proof.
  intros Hl Hi. induction idx as [|x idx IH]; simpl; [done|].
  destruct (String.eqb_spec x l) as [->|Hne]; [exfalso; apply Hl; by left|].
  rewrite IH; [done|]. intros H. apply Hl. by right.
Qed.

Section AddZero.

Context {num : Type}.
Variable zero : num.
Implicit Types (t : @AnnData num).

(** X13.  On a table without any of the translation columns and without
    a repeated ROI name, [add_zero_translation_columns] returns the table
    with the three columns appended: the ROI names are kept, exactly three
    column names are translation columns, every cell of the table is still
    there, and (the rows being as long as the list of columns) each
    translation of a ROI that has a cell is zero. *)
Theorem add_zero_translation_columns_Ok t :
  (forall c, In c (var_names t) -> ~ In c translation_columns) ->
  NoDup (obs_names t) ->
  exists t',
    add_zero_translation_columns zero t = Ok t'
    /\ obs_names t' = obs_names t
    /\ var_names t' = var_names t ++ translation_columns
    /\ count_isin translation_columns (var_names t') = 3%nat
    /\ (forall roi col v, cell t roi col = Ok v -> cell t' roi col = Ok v)
    /\ (Forall (fun row => length row = length (var_names t)) (X t) ->
        forall roi col v a,
          cell t roi col = Ok v ->
          cell t' roi (translation_column a) = Ok (Some zero)).
Proof.
  intros Hnone Hobs. unfold add_zero_translation_columns.
  assert (E : existsb
                (isin ["translation_z"; "translation_y"; "translation_x"])
                (var_names t) = false).
  { apply not_true_iff_false. intros H.
    apply existsb_exists in H as (c & Hc & Hin). apply (Hnone c Hc).
    unfold isin in Hin.
    apply existsb_exists in Hin as (c' & Hc' & ->%String.eqb_eq). done. }
  rewrite E, (NoDup_is_unique _ Hobs). cbn [negb].
  eexists. split; [reflexivity|]. cbn [obs_names var_names X].
  split; [done|]. split; [done|].
  assert (Huniq : is_unique (var_names t) = true ->
                  is_unique (var_names t ++ translation_columns) = true).
  { intros Hu. apply NoDup_is_unique, NoDup_app.
    split; [by apply is_unique_NoDup|]. split.
    - intros c Hc Hc'. rewrite list_elem_of_In in Hc, Hc'. by apply (Hnone c).
    - apply (bool_decide_unpack _). by vm_compute. }
  split; [|split].
  - unfold count_isin. rewrite filter_app, length_app.
    assert (Hf : forall cs,
               (forall c, In c cs -> ~ In c translation_columns) ->
               filter (fun l => isin translation_columns l) cs = []).
    { induction cs as [|c cs IH]; intros Hcs; [done|].
      rewrite filter_cons_False.
      - apply IH. intros c' Hc'. apply Hcs. by right.
      - intros Hin. apply (Hcs c); [by left|].
        unfold isin in Hin. apply Is_true_true, existsb_exists in Hin
          as (c' & Hc' & ->%String.eqb_eq). done. }
    by rewrite (Hf _ Hnone).
  - intros roi col v Hc.
    apply cell_Ok in Hc as (i & j & row & Hi & Hj & Hrow & Hv).
    apply get_indexer_iff in Hj as [Hu Hj].
    apply cell_Ok. exists i, j, (row ++ [Some zero; Some zero; Some zero]).
    cbn [obs_names var_names X]. split; [done|]. split.
    { apply get_indexer_iff. split; [by apply Huniq | by apply position_app_l]. }
    split.
    { change (map ?f ?l) with (f <$> l).
      rewrite list_lookup_fmap. unfold float in *. by rewrite Hrow. }
    by apply lookup_app_l_Some.
  - intros Hshape roi col v a Hc.
    apply cell_Ok in Hc as (i & j & row & Hi & Hj & Hrow & Hv).
    apply get_indexer_iff in Hj as [Hu Hj].
    assert (Hlen : length row = length (var_names t)).
    { rewrite List.Forall_forall in Hshape. apply Hshape.
      apply list_elem_of_In, list_elem_of_lookup. eauto. }
    apply cell_Ok.
    exists i, (length (var_names t) + axis_index a)%nat,
      (row ++ [Some zero; Some zero; Some zero]).
    cbn [obs_names var_names X]. split; [done|]. split.
    { apply get_indexer_iff. split; [by apply Huniq|].
      apply position_app_r; [|by destruct a].
      intros Hin. apply (Hnone _ Hin). destruct a; simpl; tauto. }
    split.
    { change (map ?f ?l) with (f <$> l).
      rewrite list_lookup_fmap. unfold float in *. by rewrite Hrow. }
    unfold float in *. rewrite <- Hlen, lookup_app_r by lia.
    replace (length row + axis_index a - length row)%nat
      with (axis_index a) by lia.
    by destruct a.
Qed.

End AddZero.

(** ** The run of the registration task *)

Lemma dict_get_KeyError {V} (d : list (Z * V)) (k : Z) :
  ~ In k (Dict.keys d) -> Dict.get d k = Raise KeyError.
Proof.
  induction d as [|[k' v] d IH]; simpl; [done|]. intros H.
  destruct (Z.eqb_spec k' k) as [->|_]; [exfalso; apply H; by left|].
  apply IH. intros Hk. apply H. by right.
Qed.

Lemma dict_get_In {V} (d : list (Z * V)) (k : Z) (v : V) :
  Dict.get d k = Ok v -> In (k, v) d.
Proof.
  induction d as [|[k' v'] d IH]; simpl; [discriminate|].
  destruct (Z.eqb_spec k' k) as [->|_].
  - intros [= ->]. by left.
  - intros H. right. by apply IH.
Qed.

Section TaskRun.

Context {num : Type}.
Variable zero : num.
Variables add sub : num -> num -> num.
Variable leb : num -> num -> bool.
Variable read_zarr : Z -> result (@AnnData num).
Variable are_ROI_table_columns_valid : @AnnData num -> result unit.
Variable reset_origin : @AnnData num -> result (@AnnData num).
Implicit Types (t : @AnnData num).

Lemma collect_roi_tables_inv roi_table reference_cycle acqs :
  forall roi_tables r,
    NoDup (Dict.keys roi_tables ++ acqs) ->
    collect_roi_tables zero read_zarr are_ROI_table_columns_valid
      roi_table reference_cycle acqs roi_tables = Ok r ->
    exists r',
      r = roi_tables ++ r'
      /\ Dict.keys r' = acqs
      /\ forall acq t, In (acq, t) r' ->
           exists t0,
             read_zarr acq = Ok t0
             /\ (if (acq =? reference_cycle)%Z
                 then add_zero_translation_columns zero t0 = Ok t
                 else t = t0)
             /\ are_ROI_table_columns_valid t = Ok tt
             /\ count_isin translation_columns (var_names t) = 3%nat.
Proof.
  induction acqs as [|acq acqs IH]; intros roi_tables r ND;
    cbn [collect_roi_tables].
  - intros [= <-]. exists []. rewrite app_nil_r.
    split; [done|]. split; [done|]. intros ? ? [].
  - intros H. apply bind_Ok in H as (t0 & Hread & H).
    apply bind_Ok in H as (t & Hadd & H).
    apply bind_Ok in H as ([] & Hvalid & H).
    destruct (count_isin translation_columns (var_names t) =? 3)%nat eqn:E;
      cbn [negb] in H; [|discriminate].
    apply Nat.eqb_eq in E.
    assert (Hfresh : Dict.mem roi_tables acq = false).
    { apply not_true_iff_false. intros Hm. apply dict_mem_In in Hm.
      apply NoDup_app in ND as (_ & Hd & _).
      apply (Hd acq); [by apply list_elem_of_In | left]. }
    rewrite (dict_set_fresh _ _ _ Hfresh) in H.
    apply IH in H as (r' & -> & Hk & Hc).
    + exists ((acq, t) :: r'). rewrite <- app_assoc. split; [done|].
      split; [simpl; by rewrite Hk|].
      intros acq' t' [[= <- <-]|Hin]; [|by apply Hc].
      exists t0. split; [done|]. split; [|done].
      destruct (acq =? reference_cycle)%Z; [done | by injection Hadd].
    + unfold Dict.keys in *. rewrite map_app. simpl.
      rewrite <- app_assoc. exact ND.
Qed.

Lemma reset_origins_keys (roi_tables r : list (Z * @AnnData num)) :
  reset_origins reset_origin roi_tables = Ok r ->
  Dict.keys r = Dict.keys roi_tables.
Proof.
  unfold reset_origins. revert r.
  induction roi_tables as [|[acq t] l IH]; intros r; simpl.
  - by intros [= <-].
  - destruct (reset_origin t) as [t'|]; simpl; [|discriminate].
    destruct (map_result _ l) as [l'|]; simpl; [|discriminate].
    intros [= <-]. simpl. f_equal. by apply IH.
Qed.

(** X14.  On distinct acquisitions, the loop that collects the ROI tables
    returns one table for each acquisition, in their order; the table is
    the one read for that acquisition, with the zero translations added if
    it is the reference cycle, it has passed the check of its columns and
    exactly three of its column names are translation columns. *)
Theorem collect_roi_tables_Ok roi_table reference_cycle (acqs : list Z)
    (roi_tables : list (Z * @AnnData num)) :
  NoDup acqs ->
  collect_roi_tables zero read_zarr are_ROI_table_columns_valid
    roi_table reference_cycle acqs [] = Ok roi_tables ->
  Dict.keys roi_tables = acqs
  /\ forall acq t, In (acq, t) roi_tables ->
       exists t0,
         read_zarr acq = Ok t0
         /\ (if (acq =? reference_cycle)%Z
             then add_zero_translation_columns zero t0 = Ok t
             else t = t0)
         /\ are_ROI_table_columns_valid t = Ok tt
         /\ count_isin translation_columns (var_names t) = 3%nat.
Proof.
  intros ND H. apply collect_roi_tables_inv in H as (r' & -> & Hk & Hc);
    [|exact ND].
  split; [done|]. intros acq t Hin. exact (Hc acq t Hin).
Qed.

(** X15.  If the reference cycle is not one of the acquisitions of the
    images, the task ends with an exception and has written nothing. *)
Theorem reference_cycle_not_an_acquisition (images : list image)
    (acquisition_dict : list (Z * string)) (roi_table : string)
    (reference_cycle : Z) (new_roi_table : option string) :
  get_acquisition_paths images = Ok acquisition_dict ->
  ~ In reference_cycle (Dict.keys acquisition_dict) ->
  exists e,
    apply_registration_to_ROI_tables zero add sub leb read_zarr
      are_ROI_table_columns_valid reset_origin
      images roi_table reference_cycle new_roi_table
    = mk_outcome [] (Some e).
Proof.
  intros Hacq Hnot. unfold apply_registration_to_ROI_tables.
  rewrite Hacq. cbn [bind].
  assert (ND : NoDup (Dict.keys acquisition_dict)).
  { apply get_acquisition_paths_loop_spec in Hacq as (d' & _ & _ & ND);
      [done | constructor]. }
  destruct (collect_roi_tables _ _ _ _ _ _ _) as [r|e] eqn:Hc; cbn [bind];
    [|eauto].
  apply collect_roi_tables_inv in Hc as (r' & -> & Hk & _); [|exact ND].
  simpl. destruct (reset_origins reset_origin r') as [r''|e] eqn:Hr;
    cbn [bind]; [|eauto].
  apply reset_origins_keys in Hr. unfold check_same_ROIs.
  rewrite dict_get_KeyError by (by rewrite Hr, Hk). cbn [bind]. eauto.
Qed.

Lemma write_loop_spec (new_roi_table : string) (roi_tables : list (Z * @AnnData num))
    max_df min_df (rois : list string) (acqs : list Z) :
  forall done,
  exists (n : nat) (ts : list (@AnnData num)),
    written (write_loop add sub new_roi_table acqs roi_tables max_df min_df
               rois done)
    = done ++ map (fun '(acq, t) => (acq, new_roi_table, t))
                (combine (firstn n acqs) ts)
    /\ length ts = n /\ (n <= length acqs)%nat
    /\ (raised (write_loop add sub new_roi_table acqs roi_tables max_df
                  min_df rois done) = None <-> n = length acqs)
    /\ Forall2 (fun acq t' =>
                  exists t, In (acq, t) roi_tables
                    /\ apply_registration_to_single_ROI_table add sub t
                         max_df min_df rois = Ok t')
         (firstn n acqs) ts.
Proof.
  induction acqs as [|acq acqs IH]; intros done; cbn [write_loop].
  - exists 0%nat, []. simpl. rewrite app_nil_r.
    repeat split; try done; try constructor.
  - destruct (Dict.get roi_tables acq) as [t|e] eqn:Hget; cbn [bind].
    + destruct (apply_registration_to_single_ROI_table add sub t max_df
                  min_df rois) as [t'|e] eqn:Happ.
      * destruct (IH (done ++ [(acq, new_roi_table, t')]))
          as (n & ts & W & L & Hn & R & F).
        exists (S n), (t' :: ts). rewrite W, <- app_assoc. simpl.
        split; [done|]. split; [by rewrite L|]. split; [lia|].
        split; [rewrite R; lia|].
        constructor; [|done]. exists t. split; [|done].
        by apply dict_get_In.
      * exists 0%nat, []. simpl. rewrite app_nil_r.
        repeat split; try done; try lia; try constructor.
    + exists 0%nat, []. simpl. rewrite app_nil_r.
      repeat split; try done; try lia; try constructor.
Qed.

(** X16.  Whatever happens, the tables the task has written are for the
    first acquisitions of the images, one each and in their order, and all
    under the new name, which is [registered_] followed by the name of the
    ROI table when none or an empty one is given; and the task ends
    without an exception exactly if there is an image and it has written a
    table for every acquisition. *)
Theorem written_tables (images : list image)
    (acquisition_dict : list (Z * string)) (roi_table : string)
    (reference_cycle : Z) (new_roi_table : option string) :
  get_acquisition_paths images = Ok acquisition_dict ->
  let o := apply_registration_to_ROI_tables zero add sub leb read_zarr
             are_ROI_table_columns_valid reset_origin
             images roi_table reference_cycle new_roi_table in
  let name := match new_roi_table with
              | Some name =>
                  if String.eqb name "" then "registered_" +:+ roi_table
                  else name
              | None => "registered_" +:+ roi_table
              end in
  (exists n,
      map (fun w => fst (fst w)) (written o)
      = firstn n (Dict.keys acquisition_dict))
  /\ Forall (fun w => snd (fst w) = name) (written o)
  /\ (raised o = None <->
      images <> []
      /\ map (fun w => fst (fst w)) (written o) = Dict.keys acquisition_dict).
Proof.
  intros Hacq. cbv zeta. unfold apply_registration_to_ROI_tables.
  rewrite Hacq. cbn [bind].
  assert (Hempty : acquisition_dict = [] <-> images = []).
  { pose proof Hacq as H.
    apply get_acquisition_paths_loop_spec in H as (d' & -> & -> & _);
      [|constructor].
    simpl. by destruct d'. }
  set (name := match new_roi_table with
               | Some name =>
                   if String.eqb name "" then "registered_" +:+ roi_table
                   else name
               | None => "registered_" +:+ roi_table
               end).
  match goal with
  | |- context [match ?p with Ok _ => _ | Raise _ => _ end] =>
      destruct p as [[[[[d r] max_df] min_df] rois]|e] eqn:Hp
  end.
  - destruct (write_loop_spec name r max_df min_df rois
                (Dict.keys acquisition_dict) [])
      as (n & ts & W & L & Hn & R & _).
    assert (Hd : d = acquisition_dict).
    { destruct (collect_roi_tables _ _ _ _ _ _ _); cbn [bind] in Hp;
        [|discriminate].
      destruct (reset_origins _ _); cbn [bind] in Hp; [|discriminate].
      destruct (check_same_ROIs _ _); cbn [bind] in Hp; [|discriminate].
      destruct (map_result _ _); cbn [bind] in Hp; [|discriminate].
      destruct (calculate_min_max_across_dfs _ _) as [[? ?]|]; cbn [bind] in Hp;
        [|discriminate].
      by injection Hp as <- _ _ _ _. }
    subst d. rewrite W, R. clear W R. simpl.
    assert (Hmap : map (fun w : Z * string * @AnnData num => fst (fst w))
                     (map (fun '(acq, t) => (acq, name, t))
                        (combine (firstn n (Dict.keys acquisition_dict)) ts))
                   = firstn n (Dict.keys acquisition_dict)).
    { rewrite map_map.
      assert (Hlen : length (firstn n (Dict.keys acquisition_dict)) = length ts).
      { rewrite length_firstn. lia. }
      revert Hlen. generalize (firstn n (Dict.keys acquisition_dict)).
      clear. intros l. revert l.
      induction ts as [|t ts IH]; intros [|a l]; simpl; try done.
      intros [= H]. by rewrite IH. }
    rewrite Hmap. split; [by exists n|]. split.
    + apply List.Forall_forall. intros w Hw.
      apply in_map_iff in Hw as ([acq t] & <- & _). done.
    + split.
      * intros ->. rewrite firstn_all. split; [|done].
        intros Him. apply Hempty in Him. subst. discriminate Hp.
      * intros [_ H]. apply (f_equal (@length Z)) in H.
        rewrite length_firstn in H. lia.
  - simpl. split; [by exists 0%nat|]. split; [constructor|].
    split; [discriminate|]. intros [Him H]. exfalso. apply Him, Hempty.
    destruct acquisition_dict; [done | discriminate].
Qed.

End TaskRun.

(** ** The further properties on the example tables *)

Lemma registration_keeps_witness :
  obs_names example_registered1 = obs_names example_cycle1
  /\ var_names example_registered1 = var_names example_cycle1
  /\ (forall roi a,
         cell example_registered1 roi (translation_column a)
         = cell example_cycle1 roi (translation_column a))
  /\ (forall roi col,
         (forall a, col <> position_column a /\ col <> extent_column a) ->
         cell example_registered1 roi col = cell example_cycle1 roi col)
  /\ (forall roi col, ~ In roi ["FOV_1"; "FOV_2"] ->
         cell example_registered1 roi col = cell example_cycle1 roi col).
Proof.
  apply (registration_keeps Z.add Z.sub example_cycle1 example_registered1
           example_max_df example_min_df ["FOV_1"; "FOV_2"]).
  vm_compute. reflexivity.
Defined.

Lemma min_at_most_max_witness :
  exists max_df min_df,
    calculate_min_max_across_dfs Z.leb [example_frame0; example_frame1]
    = Ok (max_df, min_df)
    /\ index max_df = index example_frame0
    /\ columns max_df = columns example_frame0
    /\ index min_df = index example_frame0
    /\ columns min_df = columns example_frame0
    /\ forall i j,
        (i < length (index example_frame0))%nat ->
        (j < length (columns example_frame0))%nat ->
        exists mx mn,
          entry (values max_df) i j = Some (Some mx)
          /\ entry (values min_df) i j = Some (Some mn)
          /\ Z.leb mn mx = true.
Proof.
  apply (min_at_most_max Z.leb Z_leb_total Z_leb_trans
           example_frame0 [example_frame1]).
  repeat constructor;
    intros [|[|i]] [|[|[|j]]] v H; vm_compute in H; try discriminate;
    injection H as <-; discriminate.
Defined.

Lemma add_zero_translation_columns_Ok_witness :
  exists t',
    add_zero_translation_columns 0%Z example_reference = Ok t'
    /\ obs_names t' = obs_names example_reference
    /\ var_names t' = var_names example_reference ++ translation_columns
    /\ count_isin translation_columns (var_names t') = 3%nat
    /\ (forall roi col v,
           cell example_reference roi col = Ok v -> cell t' roi col = Ok v)
    /\ (Forall (fun row => length row = length (var_names example_reference))
          (X example_reference) ->
        forall roi col v a,
          cell example_reference roi col = Ok v ->
          cell t' roi (translation_column a) = Ok (Some 0%Z)).
Proof.
  apply (add_zero_translation_columns_Ok 0%Z example_reference).
  - apply List.Forall_forall.
    repeat constructor; simpl; intuition discriminate.
  - apply (bool_decide_unpack _). vm_compute. exact I.
Defined.

Lemma collect_roi_tables_Ok_witness :
  Dict.keys [(0%Z, example_cycle0); (1%Z, example_cycle1)] = [0%Z; 1%Z]
  /\ forall acq t,
       In (acq, t) [(0%Z, example_cycle0); (1%Z, example_cycle1)] ->
       exists t0,
         example_read_zarr acq = Ok t0
         /\ (if (acq =? 0)%Z
             then add_zero_translation_columns 0%Z t0 = Ok t
             else t = t0)
         /\ Ok tt = Ok tt
         /\ count_isin translation_columns (var_names t) = 3%nat.
Proof.
  apply (collect_roi_tables_Ok 0%Z example_read_zarr (fun _ => Ok tt)
           "FOV_ROI_table" 0%Z [0%Z; 1%Z]
           [(0%Z, example_cycle0); (1%Z, example_cycle1)]).
  - apply (bool_decide_unpack _). vm_compute. exact I.
  - vm_compute. reflexivity.
Defined.

Lemma reference_cycle_not_an_acquisition_witness :
  exists e,
    apply_registration_to_ROI_tables 0%Z Z.add Z.sub Z.leb example_read_zarr
      (fun _ => Ok tt) (fun t => Ok t)
      example_images "FOV_ROI_table" 2%Z None
    = mk_outcome [] (Some e).
Proof.
  apply (reference_cycle_not_an_acquisition 0%Z Z.add Z.sub Z.leb
           example_read_zarr (fun _ => Ok tt) (fun t => Ok t)
           example_images [(0%Z, "0"); (1%Z, "1")] "FOV_ROI_table" 2%Z None).
  - vm_compute. reflexivity.
  - simpl. intros [H|[H|[]]]; discriminate.
Defined.

Lemma written_tables_witness :
  let o := apply_registration_to_ROI_tables 0%Z Z.add Z.sub Z.leb
             example_read_zarr (fun _ => Ok tt) (fun t => Ok t)
             example_images "FOV_ROI_table" 0%Z None in
  (exists n,
      map (fun w => fst (fst w)) (written o)
      = firstn n (Dict.keys [(0%Z, "0"); (1%Z, "1")]))
  /\ Forall (fun w => snd (fst w) = "registered_FOV_ROI_table") (written o)
  /\ (raised o = None <->
      example_images <> []
      /\ map (fun w => fst (fst w)) (written o)
         = Dict.keys [(0%Z, "0"); (1%Z, "1")]).
Proof.
  apply (written_tables 0%Z Z.add Z.sub Z.leb
           example_read_zarr (fun _ => Ok tt) (fun t => Ok t)
           example_images [(0%Z, "0"); (1%Z, "1")] "FOV_ROI_table" 0%Z None).
  vm_compute. reflexivity.
Defined.
